(** * Voice-note plugin: the recording session and its two-stage pipeline

    A shallow embedding of [src/services/voice-note-service.ts]
    (class [VoiceNoteService]) together with the parts of [src/main.ts] and
    [src/settings.ts] it depends on.

    The service is asynchronous: every [await] in the source is a point
    where the host may run other callbacks (another toggle, a settings
    edit, a recorder event) before the suspended call resumes.  The
    embedding therefore is an event-driven machine: a [World] holds the
    fields of the service, the host objects it talks to and the list of
    suspended calls; [step] runs one host event up to the next [await]. *)

From Stdlib Require Import Ascii String NArith QArith.
From stdpp Require Import base list strings.

Local Open Scope string_scope.
Local Open Scope list_scope.
Local Open Scope nat_scope.

(** ** JavaScript strings

    A JavaScript string is a sequence of UTF-16 code units.  The embedding
    covers the code units below 256 (Basic Latin and Latin-1 Supplement),
    which is what [ascii] spans; on that range the definitions below are
    the ECMAScript ones. *)
Module JsString.

(** WhiteSpace and LineTerminator code units below 256: TAB, LF, VT, FF,
    CR, SPACE and NO-BREAK SPACE.  These are what [trim] strips. *)
Definition isWhiteSpace (c : ascii) : bool :=
  let n := N_of_ascii c in
  ((9 <=? n) && (n <=? 13) || (n =? 32) || (n =? 160))%N.

(** Simple lower-case mapping of one code unit: A-Z, and the capital
    letters of Latin-1 (U+00C0-U+00DE without the multiplication sign
    U+00D7), move up by 32; every other unit is its own lower case. *)
Definition lowerUnit (c : ascii) : ascii :=
  let n := N_of_ascii c in
  if ((65 <=? n) && (n <=? 90)
      || (192 <=? n) && (n <=? 222) && negb (n =? 215))%N
  then ascii_of_N (n + 32) else c.

(** [String.prototype.toLowerCase]. *)
Fixpoint toLowerCase (s : string) : string :=
  match s with
  | EmptyString => EmptyString
  | String c s' => String (lowerUnit c) (toLowerCase s')
  end.

(** [String.prototype.trimStart]. *)
Fixpoint trimStart (s : string) : string :=
  match s with
  | EmptyString => EmptyString
  | String c s' => if isWhiteSpace c then trimStart s' else s
  end.

(** [String.prototype.trimEnd]. *)
Fixpoint trimEnd (s : string) : string :=
  match s with
  | EmptyString => EmptyString
  | String c s' =>
      match trimEnd s' with
      | EmptyString => if isWhiteSpace c then EmptyString else String c EmptyString
      | t => String c t
      end
  end.

(** [String.prototype.trim]. *)
Definition trim (s : string) : string := trimEnd (trimStart s).

(** A string made of white space only (the empty string included). *)
Fixpoint blank (s : string) : bool :=
  match s with
  | EmptyString => true
  | String c s' => isWhiteSpace c && blank s'
  end.

(** [s.startsWith(p)]. *)
Fixpoint startsWith (p s : string) : bool :=
  match p, s with
  | EmptyString, _ => true
  | String a p', String b s' => if Ascii.eqb a b then startsWith p' s' else false
  | String _ _, EmptyString => false
  end.

(** [s.includes(p)]. *)
Fixpoint includes (p s : string) : bool :=
  startsWith p s ||
  match s with
  | EmptyString => false
  | String _ s' => includes p s'
  end.

(** The line feed, written backslash-n in the source. *)
Definition LF : string := String (ascii_of_N 10) EmptyString.

(** Truthiness of a string: only the empty string is falsy. *)
Definition truthy (s : string) : bool := negb (String.eqb s "").

(** [a || b] on strings. *)
Definition orElse (a b : string) : string := if truthy a then a else b.

End JsString.
Import JsString.

(** The comparison the specification speaks of: two identifiers match
    "by an exact case-insensitive string comparison" when they are equal
    once both are lower-cased, nothing else being removed or ignored. *)
Definition equalsIgnoreCase (a b : string) : bool :=
  String.eqb (toLowerCase a) (toLowerCase b).

(** ** Exceptions *)

(** What a [throw] or a rejected promise carries: an [Error] object with
    its [message], or any other value. *)
Inductive Thrown :=
| ErrorObject (message : string)
| OtherValue.

(** The outcome of a call that may throw. *)
Inductive Result (A : Type) :=
| Ok (a : A)
| Throw (e : Thrown).
Arguments Ok {A} a.
Arguments Throw {A} e.

Definition bind {A B} (r : Result A) (k : A -> Result B) : Result B :=
  match r with
  | Ok a => k a
  | Throw e => Throw e
  end.

Notation "'do!' x := r 'in' k" := (bind r (fun x => k))
  (at level 10, x name, r at level 100, k at level 200).

(** ** settings.ts *)

Record VoiceNoteSettings := {
  apiKey : string;
  transcriptionModel : string;
  noteModel : string;
  notePrompt : string
}.

Definition DEFAULT_SETTINGS : VoiceNoteSettings := {|
  apiKey := "";
  transcriptionModel := "whisper-1";
  noteModel := "gpt-4o-mini";
  notePrompt :=
    "You are an assistant that turns voice transcripts into clean Obsidian notes. " +:+
    "Return a concise note in Markdown with a short title, bullet points, and clear sections when helpful. " +:+
    "Remove filler words, keep the original meaning, and avoid adding new facts."
|}.

(** ** voice-note-service.ts: data *)

Inductive RecordingState := idle | recording | processing.

Definition DEFAULT_MIME_TYPE : string := "audio/webm;codecs=opus".

(** A [Blob]: its byte size and its content type. *)
Record Blob := { size : nat; type : string }.

(** A content type as the [Blob] and [File] constructors store it: the
    empty string when a code unit lies outside U+0020-U+007E, and
    lower-cased otherwise. *)
Definition printable (c : ascii) : bool :=
  let n := N_of_ascii c in ((32 <=? n) && (n <=? 126))%N.

Fixpoint allPrintable (s : string) : bool :=
  match s with
  | EmptyString => true
  | String c s' => printable c && allPrintable s'
  end.

Definition normalizeType (ty : string) : string :=
  if allPrintable ty then toLowerCase ty else "".

(** [new Blob(parts, {type})]. *)
Definition newBlob (parts : list Blob) (ty : string) : Blob :=
  {| size := foldr (fun b n => size b + n) 0 parts; type := normalizeType ty |}.

(** [new File([blob], name, {type})]. *)
Record File := { fileName : string; fileType : string; fileSize : nat }.

(** A [MediaRecorder] over its own [MediaStream]; [rid] identifies both. *)
Record MediaRecorder := { rid : nat; mimeType : string }.

Inductive Role := system | user.

Record ChatMessage := { role : Role; content : string }.

(** The JSON body of the chat-completions request; [temperature] is an
    optional property. *)
Record ChatBody := {
  model : string;
  messages : list ChatMessage;
  temperature : option Q
}.

(** The two [fetch] calls of the service. *)
Inductive Request :=
| TranscriptionRequest (authorization : string) (file : File)
    (modelField : string) (response_format : string)
| ChatRequest (authorization : string) (body : ChatBody).

(** A received HTTP response: its [ok] flag, its body as [text()] gives it
    and as [json()] gives it; [json] is a [Throw] when the body is not JSON
    or is not an object whose properties can be read. *)
Record Response (D : Type) := {
  ok : bool;
  text : string;
  json : Result D
}.
Arguments ok {D} _.
Arguments text {D} _.
Arguments json {D} _.

(** [{text?: string}] *)
Record TranscriptionData := { textField : option string }.

(** [{choices?: Array<{message?: {content?: string}}>}] *)
Record ChoiceMessage := { contentField : option string }.
Record Choice := { messageField : option ChoiceMessage }.
Record CompletionData := { choicesField : option (list Choice) }.

(** ** voice-note-service.ts: the synchronous pieces *)

(** [supportsTemperature], lines 220-223. *)
Definition supportsTemperature (model : string) : bool :=
  let normalized := toLowerCase (trim model) in
  negb (String.eqb normalized "gpt-5-mini").

(** [transcribeAudio] up to its [fetch] (lines 117-139): the request it
    sends, or the configuration error it throws. *)
Definition transcribeAudio_request (settings : VoiceNoteSettings) (audioBlob : Blob)
  : Result Request :=
  if negb (truthy (apiKey settings)) then
    Throw (ErrorObject "Add your OpenAI API key in settings.")
  else if negb (truthy (transcriptionModel settings)) then
    Throw (ErrorObject "Set a transcription model in settings.")
  else
    let fileName := if includes "ogg" (type audioBlob)
                    then "recording.ogg" else "recording.webm" in
    let file := {| fileName := fileName;
                   fileType := normalizeType (orElse (type audioBlob) "audio/webm");
                   fileSize := size audioBlob |} in
    Ok (TranscriptionRequest ("Bearer " +:+ apiKey settings) file
          (transcriptionModel settings) "json").

(** [transcribeAudio] from the settled [fetch] on (lines 133-152). *)
Definition transcribeAudio_result (fetched : Result (Response TranscriptionData))
  : Result string :=
  do! response := fetched in
  if negb (ok response) then
    Throw (ErrorObject ("Transcription failed: " +:+ text response))
  else
    do! data := json response in
    match textField data with
    | Some t =>
        let text := trim t in
        if negb (truthy text) then
          Throw (ErrorObject "Transcription returned no text.")
        else Ok text
    | None => Throw (ErrorObject "Transcription returned no text.")
    end.

(** The body [generateNote] builds (lines 164-178). *)
Definition generateNote_body (settings : VoiceNoteSettings) (transcript : string)
  : ChatBody :=
  let body := {|
    model := noteModel settings;
    messages := [ {| role := system; content := notePrompt settings |};
                  {| role := user; content := "Transcript:" +:+ LF +:+ transcript |} ];
    temperature := None |} in
  if supportsTemperature (noteModel settings) then
    {| model := model body; messages := messages body;
       temperature := Some 0.2%Q |}
  else body.

(** [generateNote] up to its [fetch] (lines 155-187). *)
Definition generateNote_request (settings : VoiceNoteSettings) (transcript : string)
  : Result Request :=
  if negb (truthy (apiKey settings)) then
    Throw (ErrorObject "Add your OpenAI API key in settings.")
  else if negb (truthy (noteModel settings)) then
    Throw (ErrorObject "Set a note creation model in settings.")
  else
    Ok (ChatRequest ("Bearer " +:+ apiKey settings)
          (generateNote_body settings transcript)).

(** [data.choices?.[0]?.message?.content] *)
Definition firstChoiceContent (data : CompletionData) : option string :=
  match choicesField data with
  | Some (c :: _) =>
      match messageField c with
      | Some m => contentField m
      | None => None
      end
  | _ => None
  end.

(** [generateNote] from the settled [fetch] on (lines 180-202). *)
Definition generateNote_result (fetched : Result (Response CompletionData))
  : Result string :=
  do! response := fetched in
  if negb (ok response) then
    Throw (ErrorObject ("Note creation failed: " +:+ text response))
  else
    do! data := json response in
    match firstChoiceContent data with
    | Some content =>
        if negb (truthy content) then
          Throw (ErrorObject "Note creation returned no content.")
        else Ok (trim content)
    | None => Throw (ErrorObject "Note creation returned no content.")
    end.

(** ** The host document surface

    [MarkdownView.editor]: the text before the selection, the selected text
    and the text after it.  [replaceSelection] puts the given text in place
    of the selection and leaves the cursor behind it. *)
Record Editor := { before : string; selection : string; after : string }.

Definition replaceSelection (replacement : string) (e : Editor) : Editor :=
  {| before := before e +:+ replacement; selection := ""; after := after e |}.

(** ** Suspended calls and the world *)

(** An [async] call of the service parked at one of its [await]s.
    [stopRecording] awaits the recorder's stop event, then (inside
    [transcribeAudio] and [generateNote]) the two [fetch]es; these three
    are the stages of one pipeline attempt.  A parked call keeps no copy of
    the settings: the local [settings] of each stage is not used after the
    stage's [await]. *)
Inductive Task :=
| StartAwaitingUserMedia                          (* line 54 *)
| StopAwaitingRecorder (recorder : MediaRecorder) (* lines 91-101 *)
| TranscribeAwaitingFetch                         (* line 133 *)
| GenerateAwaitingFetch.                          (* line 180 *)

Record World := {
  (* fields of VoiceNoteService *)
  state : RecordingState;
  mediaRecorder : option MediaRecorder;
  chunks : list Blob;
  (* plugin.settings, read through getSettings() *)
  settings : VoiceNoteSettings;
  (* navigator.mediaDevices?.getUserMedia is defined *)
  hasGetUserMedia : bool;
  (* workspace.getActiveViewOfType(MarkdownView) *)
  activeView : option Editor;
  (* what the service did to the outside, oldest first *)
  notices : list string;
  stateChanges : list RecordingState;
  requests : list Request;
  (* recorders in state "recording", streams whose tracks are live *)
  capturing : list nat;
  liveStreams : list nat;
  nextRid : nat;
  (* the suspended calls *)
  tasks : list Task
}.

Definition set_state v w :=
  Build_World v (mediaRecorder w) (chunks w) (settings w) (hasGetUserMedia w)
    (activeView w) (notices w) (stateChanges w) (requests w) (capturing w)
    (liveStreams w) (nextRid w) (tasks w).
Definition set_mediaRecorder v w :=
  Build_World (state w) v (chunks w) (settings w) (hasGetUserMedia w)
    (activeView w) (notices w) (stateChanges w) (requests w) (capturing w)
    (liveStreams w) (nextRid w) (tasks w).
Definition set_chunks v w :=
  Build_World (state w) (mediaRecorder w) v (settings w) (hasGetUserMedia w)
    (activeView w) (notices w) (stateChanges w) (requests w) (capturing w)
    (liveStreams w) (nextRid w) (tasks w).
Definition set_settings v w :=
  Build_World (state w) (mediaRecorder w) (chunks w) v (hasGetUserMedia w)
    (activeView w) (notices w) (stateChanges w) (requests w) (capturing w)
    (liveStreams w) (nextRid w) (tasks w).
Definition set_activeView v w :=
  Build_World (state w) (mediaRecorder w) (chunks w) (settings w) (hasGetUserMedia w)
    v (notices w) (stateChanges w) (requests w) (capturing w)
    (liveStreams w) (nextRid w) (tasks w).
Definition set_notices v w :=
  Build_World (state w) (mediaRecorder w) (chunks w) (settings w) (hasGetUserMedia w)
    (activeView w) v (stateChanges w) (requests w) (capturing w)
    (liveStreams w) (nextRid w) (tasks w).
Definition set_stateChanges v w :=
  Build_World (state w) (mediaRecorder w) (chunks w) (settings w) (hasGetUserMedia w)
    (activeView w) (notices w) v (requests w) (capturing w)
    (liveStreams w) (nextRid w) (tasks w).
Definition set_requests v w :=
  Build_World (state w) (mediaRecorder w) (chunks w) (settings w) (hasGetUserMedia w)
    (activeView w) (notices w) (stateChanges w) v (capturing w)
    (liveStreams w) (nextRid w) (tasks w).
Definition set_capturing v w :=
  Build_World (state w) (mediaRecorder w) (chunks w) (settings w) (hasGetUserMedia w)
    (activeView w) (notices w) (stateChanges w) (requests w) v
    (liveStreams w) (nextRid w) (tasks w).
Definition set_liveStreams v w :=
  Build_World (state w) (mediaRecorder w) (chunks w) (settings w) (hasGetUserMedia w)
    (activeView w) (notices w) (stateChanges w) (requests w) (capturing w)
    v (nextRid w) (tasks w).
Definition set_nextRid v w :=
  Build_World (state w) (mediaRecorder w) (chunks w) (settings w) (hasGetUserMedia w)
    (activeView w) (notices w) (stateChanges w) (requests w) (capturing w)
    (liveStreams w) v (tasks w).
Definition set_tasks v w :=
  Build_World (state w) (mediaRecorder w) (chunks w) (settings w) (hasGetUserMedia w)
    (activeView w) (notices w) (stateChanges w) (requests w) (capturing w)
    (liveStreams w) (nextRid w) v.

(** The world when the plugin has loaded: the service as constructed
    (lines 14-16), nothing done yet, nothing suspended. *)
Definition loaded (s : VoiceNoteSettings) (gum : bool) (view : option Editor) : World :=
  {| state := idle; mediaRecorder := None; chunks := [];
     settings := s; hasGetUserMedia := gum; activeView := view;
     notices := []; stateChanges := []; requests := [];
     capturing := []; liveStreams := []; nextRid := 0; tasks := [] |}.

(** ** Effects *)

(** [new Notice(message)] *)
Definition Notice (message : string) (w : World) : World :=
  set_notices (notices w ++ [message]) w.

(** [setState], lines 215-218: the field, then the [onStateChange] callback. *)
Definition setState (s : RecordingState) (w : World) : World :=
  set_stateChanges (stateChanges w ++ [s]) (set_state s w).

(** [fetch(...)]: the request leaves. *)
Definition fetch (r : Request) (w : World) : World :=
  set_requests (requests w ++ [r]) w.

(** Park the running call at an [await]. *)
Definition suspend (t : Task) (w : World) : World :=
  set_tasks (tasks w ++ [t]) w.

Definition without (n : nat) (l : list nat) : list nat :=
  List.filter (fun m => negb (Nat.eqb m n)) l.

(** ** voice-note-service.ts: the methods, cut at their awaits *)

(** [startRecording] up to [await getUserMedia] (lines 48-54). *)
Definition startRecording (w : World) : World :=
  if negb (hasGetUserMedia w) then
    Notice "Microphone access is not available." w
  else
    suspend StartAwaitingUserMedia w.

(** What the user agent answers when the stream is granted:
    [MediaRecorder.isTypeSupported(DEFAULT_MIME_TYPE)], and the type a
    recorder built without a [mimeType] option reports. *)
Record UserMedia := { opusSupported : bool; nativeMimeType : string }.

(** [startRecording] after [getUserMedia] resolved (lines 55-79).  The two
    listeners it registers are the events [DataAvailable] and
    [RecorderStopped] of [step]. *)
Definition startRecording_resume (media : UserMedia) (w : World) : World :=
  let mimeType := if opusSupported media then DEFAULT_MIME_TYPE else "" in
  let recorder :=
    {| rid := nextRid w;
       mimeType := if truthy mimeType then mimeType else nativeMimeType media |} in
  let w := set_liveStreams (liveStreams w ++ [rid recorder]) w in
  let w := set_nextRid (S (nextRid w)) w in
  let w := set_mediaRecorder (Some recorder) w in
  let w := set_chunks [] w in
  let w := set_capturing (capturing w ++ [rid recorder]) w in (* recorder.start() *)
  let w := setState recording w in
  Notice "Recording started." w.

(** The [dataavailable] listener (lines 63-67). *)
Definition onDataAvailable (data : Blob) (w : World) : World :=
  if 0 <? size data then set_chunks (chunks w ++ [data]) w else w.

(** [stopRecording] up to the [await] of the stop event (lines 82-101). *)
Definition stopRecording (w : World) : World :=
  match mediaRecorder w with
  | None => w
  | Some recorder =>
      let w := setState processing w in
      let w := set_mediaRecorder None w in
      let w := set_capturing (without (rid recorder) (capturing w)) w in (* recorder.stop() *)
      suspend (StopAwaitingRecorder recorder) w
  end.

(** The [catch] arm of [stopRecording] (lines 108-110). *)
Definition catch_ (error : Thrown) (w : World) : World :=
  let message := match error with
                 | ErrorObject m => m
                 | OtherValue => "Failed to process recording."
                 end in
  Notice message w.

(** The [finally] arm of [stopRecording] (lines 111-114). *)
Definition finally_ (w : World) : World :=
  setState idle (set_chunks [] w).

(** [insertNote], lines 205-213. *)
Definition insertNote (note : string) (w : World) : Result World :=
  match activeView w with
  | None => Throw (ErrorObject "Open a note to insert the transcript.")
  | Some view =>
      Ok (set_activeView (Some (replaceSelection (note +:+ LF) view)) w)
  end.

(** The pipeline attempt parked as task [i] moves to its next [await]
    (having sent [request]), or leaves through [catch] and [finally]. *)
Definition advance (i : nat) (next : Task) (r : Result Request) (w : World) : World :=
  match r with
  | Ok request => set_tasks (<[i := next]> (tasks w)) (fetch request w)
  | Throw e => set_tasks (delete i (tasks w)) (finally_ (catch_ e w))
  end.

(** [stopRecording] from the stop event to the first [fetch]
    (lines 69-75, 94-97, 103-104 and 117-139). *)
Definition stopRecording_stopped (i : nat) (recorder : MediaRecorder) (w : World) : World :=
  let w := set_liveStreams (without (rid recorder) (liveStreams w)) w in
  let audioBlob := newBlob (chunks w) (orElse (mimeType recorder) "audio/webm") in
  advance i TranscribeAwaitingFetch (transcribeAudio_request (settings w) audioBlob) w.

(** [stopRecording] from the settled transcription [fetch] to the second
    [fetch] (lines 141-152, 104-105 and 155-187). *)
Definition stopRecording_transcribed (i : nat)
    (fetched : Result (Response TranscriptionData)) (w : World) : World :=
  advance i GenerateAwaitingFetch
    (do! transcript := transcribeAudio_result fetched in
     generateNote_request (settings w) transcript) w.

(** [stopRecording] from the settled completion [fetch] to its end
    (lines 189-202 and 105-114). *)
Definition stopRecording_composed (i : nat)
    (fetched : Result (Response CompletionData)) (w : World) : World :=
  let w' := match (do! note := generateNote_result fetched in insertNote note w) with
            | Ok w1 => finally_ (Notice "Voice note inserted." w1)
            | Throw e => finally_ (catch_ e w)
            end in
  set_tasks (delete i (tasks w')) w'.

(** [toggleRecording], lines 28-40, up to the first [await] inside. *)
Definition toggleRecording (w : World) : World :=
  match state w with
  | recording => stopRecording w
  | processing => Notice "Already processing the previous recording." w
  | idle => startRecording w
  end.

(** [stopIfRecording], lines 42-46, up to the first [await] inside. *)
Definition stopIfRecording (w : World) : World :=
  match state w with
  | recording => stopRecording w
  | _ => w
  end.

(** ** The event loop *)

(** What the host can run: a call of one of the two public methods
    (main.ts calls [toggleRecording] from the ribbon icon and the command
    without awaiting it, and [stopIfRecording] from [onunload]), the
    settling of the promise a parked task waits for ([i] is the task's
    place in the list), a recorder event, an edit of the settings (the
    setting tab's [onChange]), or a change of the active view. *)
Inductive Event :=
| CallToggleRecording
| CallStopIfRecording
| UserMediaSettled (i : nat) (granted : Result UserMedia)
| DataAvailable (recorderId : nat) (data : Blob)
| RecorderStopped (i : nat)
| TranscriptionSettled (i : nat) (fetched : Result (Response TranscriptionData))
| CompletionSettled (i : nat) (fetched : Result (Response CompletionData))
| SettingsEdited (s : VoiceNoteSettings)
| ActiveViewChanged (view : option Editor).

(** A recorder delivers data while it records and once more between
    [stop()] and its stop event. *)
Definition delivering (recorderId : nat) (w : World) : bool :=
  existsb (Nat.eqb recorderId) (capturing w) ||
  existsb (fun t => match t with
                    | StopAwaitingRecorder r => Nat.eqb recorderId (rid r)
                    | _ => false
                    end) (tasks w).

(** One event, run until the service suspends or returns; [None] when the
    event cannot happen in this world. *)
Definition step (e : Event) (w : World) : option World :=
  match e with
  | CallToggleRecording => Some (toggleRecording w)
  | CallStopIfRecording => Some (stopIfRecording w)
  | UserMediaSettled i granted =>
      match tasks w !! i with
      | Some StartAwaitingUserMedia =>
          let w := set_tasks (delete i (tasks w)) w in
          match granted with
          | Ok media => Some (startRecording_resume media w)
          | Throw _ => Some w   (* the call rejects; nobody awaits it *)
          end
      | _ => None
      end
  | DataAvailable recorderId data =>
      if delivering recorderId w then Some (onDataAvailable data w) else None
  | RecorderStopped i =>
      match tasks w !! i with
      | Some (StopAwaitingRecorder recorder) => Some (stopRecording_stopped i recorder w)
      | _ => None
      end
  | TranscriptionSettled i fetched =>
      match tasks w !! i with
      | Some TranscribeAwaitingFetch => Some (stopRecording_transcribed i fetched w)
      | _ => None
      end
  | CompletionSettled i fetched =>
      match tasks w !! i with
      | Some GenerateAwaitingFetch => Some (stopRecording_composed i fetched w)
      | _ => None
      end
  | SettingsEdited s => Some (set_settings s w)
  | ActiveViewChanged view => Some (set_activeView view w)
  end.

(** A schedule of events, run from left to right. *)
Fixpoint run (es : list Event) (w : World) : option World :=
  match es with
  | [] => Some w
  | e :: es' =>
      match step e w with
      | Some w' => run es' w'
      | None => None
      end
  end.

Definition count (f : Task -> bool) (ts : list Task) : nat :=
  length (List.filter f ts).

(** A pipeline attempt is in flight from the Recording-to-Processing
    transition until it leaves through [finally]: these are the parked
    calls of [stopRecording]. *)
Definition pipelineTask (t : Task) : bool :=
  match t with
  | StartAwaitingUserMedia => false
  | _ => true
  end.

Definition inFlight (w : World) : nat := count pipelineTask (tasks w).

(** Calls of [startRecording] waiting for the microphone. *)
Definition acquiring (w : World) : nat :=
  count (fun t => negb (pipelineTask t)) (tasks w).

(** The three settlements an attempt parked as task [i] waits for, in
    order; the attempt may leave at any of them. *)
Definition attemptEvents (i : nat)
    (fetchedA : Result (Response TranscriptionData))
    (fetchedB : Result (Response CompletionData)) : list Event :=
  [RecorderStopped i; TranscriptionSettled i fetchedA; CompletionSettled i fetchedB].

(** A schedule in which [toggleRecording] is never called while an
    earlier call is still waiting for the microphone. *)
Fixpoint startsOneAtATime (es : list Event) (w : World) : bool :=
  match es with
  | [] => true
  | e :: es' =>
      match e with
      | CallToggleRecording => acquiring w =? 0
      | _ => true
      end &&
      match step e w with
      | Some w' => startsOneAtATime es' w'
      | None => true
      end
  end.

(** The session as the state machine means it: idle with nothing held
    (at most one start under way), recording with exactly the held recorder
    capturing, or processing with exactly one attempt in flight. *)
Definition oneSession (w : World) : Prop :=
  match state w with
  | idle =>
      mediaRecorder w = None /\ capturing w = [] /\
      inFlight w = 0 /\ acquiring w <= 1
  | recording =>
      (exists r, mediaRecorder w = Some r /\ capturing w = [rid r]) /\
      inFlight w = 0 /\ acquiring w = 0
  | processing =>
      mediaRecorder w = None /\ capturing w = [] /\
      inFlight w = 1 /\ acquiring w = 0
  end.

(** ** main.ts: the ribbon icon *)

(** The ribbon icon element, as far as the plugin touches it: its class
    list and its aria-label. *)
Record RibbonIcon := { classList : list string; ariaLabel : string }.

Definition hasClass (cls : string) (el : RibbonIcon) : bool :=
  existsb (String.eqb cls) (classList el).

(** [el.toggleClass(cls, value)]: adds the class when [value] holds (a
    class list has no duplicates), removes it otherwise. *)
Definition toggleClass (cls : string) (value : bool) (el : RibbonIcon) : RibbonIcon :=
  {| classList :=
       if value then
         if hasClass cls el then classList el else classList el ++ [cls]
       else List.filter (fun c => negb (String.eqb c cls)) (classList el);
     ariaLabel := ariaLabel el |}.

(** [el.setAttribute("aria-label", label)] *)
Definition setAriaLabel (label : string) (el : RibbonIcon) : RibbonIcon :=
  {| classList := classList el; ariaLabel := label |}.

(** [a === b] on recording states. *)
Definition sameState (a b : RecordingState) : bool :=
  match a, b with
  | idle, idle | recording, recording | processing, processing => true
  | _, _ => false
  end.

(** [updateRibbonState], main.ts lines 47-62; [ribbonIconEl] may be null. *)
Definition updateRibbonState (state : RecordingState) (ribbonIconEl : option RibbonIcon)
  : option RibbonIcon :=
  match ribbonIconEl with
  | None => None
  | Some el =>
      let el := toggleClass "voice-note-recording" (sameState state recording) el in
      let el := toggleClass "voice-note-processing" (sameState state processing) el in
      Some (if sameState state recording then
              setAriaLabel "Stop recording voice note" el
            else if sameState state processing then
              setAriaLabel "Processing voice note" el
            else
              setAriaLabel "Start recording voice note" el)
  end.

(** The icon after the [onStateChange] calls the service has made: main.ts
    passes [updateRibbonState] as the callback (line 16), and nothing else
    writes the icon once [onload] has run. *)
Definition ribbonAfter (calls : list RecordingState) (ribbonIconEl : option RibbonIcon)
  : option RibbonIcon :=
  foldl (fun el s => updateRibbonState s el) ribbonIconEl calls.

(** ** settings.ts: the change handlers of the two text fields

    The handlers write the trimmed value into [plugin.settings] (lines
    139-141 and 189-191), which is what [getSettings()] returns. *)
Definition onApiKeyChange (value : string) (s : VoiceNoteSettings) : VoiceNoteSettings :=
  {| apiKey := trim value; transcriptionModel := transcriptionModel s;
     noteModel := noteModel s; notePrompt := notePrompt s |}.

Definition onNotePromptChange (value : string) (s : VoiceNoteSettings) : VoiceNoteSettings :=
  {| apiKey := apiKey s; transcriptionModel := transcriptionModel s;
     noteModel := noteModel s; notePrompt := trim value |}.

(** ** Observations on a world *)

(** The recorders whose [stop()] has been called and whose stop event is
    still to come. *)
Fixpoint stoppingRids (ts : list Task) : list nat :=
  match ts with
  | [] => []
  | StopAwaitingRecorder r :: ts' => rid r :: stoppingRids ts'
  | _ :: ts' => stoppingRids ts'
  end.

Definition isTranscriptionRequest (r : Request) : bool :=
  match r with
  | TranscriptionRequest _ _ _ _ => true
  | ChatRequest _ _ => false
  end.

Definition sent (f : Request -> bool) (w : World) : nat :=
  length (List.filter f (requests w)).

Definition awaitingTranscription (t : Task) : bool :=
  match t with
  | TranscribeAwaitingFetch => true
  | _ => false
  end.

(** The text the [catch] arm shows for a thrown value (line 109). *)
Definition messageOf (error : Thrown) : string :=
  match error with
  | ErrorObject m => m
  | OtherValue => "Failed to process recording."
  end.

(** The chunks a run of [dataavailable] events leaves in the buffer. *)
Definition nonEmpty (data : Blob) : bool := 0 <? size data.

(** A completed recording cycle: the toggle that stops the recorder, its
    stop event and the two answers. *)
Definition cycleEvents (i : nat)
    (fetchedA : Result (Response TranscriptionData))
    (fetchedB : Result (Response CompletionData)) : list Event :=
  CallToggleRecording :: attemptEvents i fetchedA fetchedB.

(** A successful answer of the transcription call and of the completion
    call, with the given text. *)
Definition transcribed (t : string) : Result (Response TranscriptionData) :=
  Ok {| ok := true; text := ""; json := Ok {| textField := Some t |} |}.

Definition composed (c : string) : Result (Response CompletionData) :=
  Ok {| ok := true; text := "";
        json := Ok {| choicesField :=
          Some [ {| messageField := Some {| contentField := Some c |} |} ] |} |}.

(** * Properties *)

(** ** Strings: trimming and lower-casing *)
Section StringFacts.

Lemma append_cons c a b : String c a +:+ b = String c (a +:+ b).
Proof. reflexivity. Qed.

Lemma append_nil b : "" +:+ b = b.
Proof. reflexivity. Qed.

Lemma isWhiteSpace_lowerUnit c : isWhiteSpace (lowerUnit c) = isWhiteSpace c.
Proof. destruct c as [[] [] [] [] [] [] [] []]; reflexivity. Qed.

Lemma toLowerCase_app a b :
  toLowerCase (a +:+ b) = toLowerCase a +:+ toLowerCase b.
Proof.
  induction a as [|c a IH]; [reflexivity|].
  rewrite append_cons. simpl. now rewrite IH.
Qed.

Lemma blank_toLowerCase s : blank (toLowerCase s) = blank s.
Proof.
  induction s as [|c s IH]; simpl; [reflexivity|].
  now rewrite isWhiteSpace_lowerUnit, IH.
Qed.

Lemma trimStart_toLowerCase s :
  trimStart (toLowerCase s) = toLowerCase (trimStart s).
Proof.
  induction s as [|c s IH]; simpl; [reflexivity|].
  rewrite isWhiteSpace_lowerUnit.
  destruct (isWhiteSpace c); [exact IH | reflexivity].
Qed.

Lemma trimEnd_toLowerCase s :
  trimEnd (toLowerCase s) = toLowerCase (trimEnd s).
Proof.
  induction s as [|c s IH]; simpl; [reflexivity|].
  rewrite IH, isWhiteSpace_lowerUnit.
  destruct (trimEnd s) as [|d t]; simpl; [|reflexivity].
  destruct (isWhiteSpace c); reflexivity.
Qed.

Lemma trim_toLowerCase s : trim (toLowerCase s) = toLowerCase (trim s).
Proof. unfold trim. now rewrite trimStart_toLowerCase, trimEnd_toLowerCase. Qed.

Lemma trimStart_blank s : blank s = true -> trimStart s = "".
Proof.
  induction s as [|c s IH]; simpl; [reflexivity|].
  destruct (isWhiteSpace c); simpl; [exact IH | discriminate].
Qed.

Lemma trimEnd_blank s : blank s = true -> trimEnd s = "".
Proof.
  induction s as [|c s IH]; simpl; [reflexivity|].
  destruct (isWhiteSpace c); simpl; [|discriminate].
  intros H. now rewrite (IH H).
Qed.

Lemma trim_blank s : blank s = true -> trim s = "".
Proof. intros H. unfold trim. now rewrite (trimStart_blank _ H). Qed.

Lemma trimStart_split s :
  exists l, s = l +:+ trimStart s /\ blank l = true.
Proof.
  induction s as [|c s [l [E B]]]; simpl.
  - now exists "".
  - destruct (isWhiteSpace c) eqn:W.
    + exists (String c l). rewrite append_cons. simpl. rewrite W, B. split; [f_equal; exact E | reflexivity].
    + now exists "".
Qed.

Lemma trimEnd_split s :
  exists r, s = trimEnd s +:+ r /\ blank r = true.
Proof.
  induction s as [|c s [r [E B]]]; simpl.
  - now exists "".
  - destruct (trimEnd s) as [|d t] eqn:T.
    + rewrite append_nil in E. subst r.
      destruct (isWhiteSpace c) eqn:W.
      * exists (String c s). simpl. now rewrite W, B.
      * exists s. now rewrite append_cons.
    + exists r. rewrite append_cons. split; [f_equal; exact E | exact B].
Qed.

(** Trimming takes a blank prefix and a blank suffix away, nothing else. *)
Lemma trim_split s :
  exists l r, s = l +:+ trim s +:+ r /\ blank l = true /\ blank r = true.
Proof.
  destruct (trimStart_split s) as [l [El Bl]].
  destruct (trimEnd_split (trimStart s)) as [r [Er Br]].
  exists l, r. unfold trim. split; [|split]; [|exact Bl|exact Br].
  now rewrite <- Er.
Qed.

Lemma trimStart_app_blank l x :
  blank l = true -> trimStart (l +:+ x) = trimStart x.
Proof.
  induction l as [|c l IH]; [reflexivity|].
  rewrite append_cons. simpl.
  destruct (isWhiteSpace c); simpl; [exact IH | discriminate].
Qed.

Lemma trimEnd_app_blank x r :
  blank r = true -> trimEnd (x +:+ r) = trimEnd x.
Proof.
  intros B. induction x as [|c x IH].
  - rewrite append_nil. now apply trimEnd_blank.
  - rewrite append_cons. simpl. now rewrite IH.
Qed.

Lemma trimStart_app x r :
  trimStart (x +:+ r) = if blank x then trimStart r else trimStart x +:+ r.
Proof.
  induction x as [|c x IH]; [reflexivity|].
  rewrite append_cons. simpl.
  destruct (isWhiteSpace c); simpl; [exact IH | reflexivity].
Qed.

(** Blank padding around a string does not change what [trim] gives. *)
Lemma trim_padded l x r :
  blank l = true -> blank r = true -> trim (l +:+ x +:+ r) = trim x.
Proof.
  intros Bl Br. unfold trim.
  rewrite (trimStart_app_blank _ _ Bl), trimStart_app.
  destruct (blank x) eqn:Bx.
  - now rewrite (trimStart_blank _ Br), (trimStart_blank _ Bx).
  - now apply trimEnd_app_blank.
Qed.

Lemma startsWith_refl p : startsWith p p = true.
Proof.
  induction p as [|c p IH]; simpl; [reflexivity|].
  now rewrite Ascii.eqb_refl.
Qed.

(** A string includes each of its suffixes. *)
Lemma includes_suffix a p : includes p (a +:+ p) = true.
Proof.
  induction a as [|c a IH].
  - rewrite append_nil. destruct p as [|d p]; simpl; [reflexivity|].
    now rewrite Ascii.eqb_refl, startsWith_refl.
  - rewrite append_cons. simpl. rewrite IH. apply orb_true_r.
Qed.

Lemma truthy_true s : truthy s = true <-> s <> "".
Proof.
  unfold truthy. rewrite negb_true_iff. apply String.eqb_neq.
Qed.

End StringFacts.

(** ** Stage B: the temperature field *)

(** [supportsTemperature] says no exactly on the identifiers that are
    "gpt-5-mini" in some mix of cases with white space around. *)
Lemma supportsTemperature_false_iff m :
  supportsTemperature m = false <->
  exists l core r,
    m = l +:+ core +:+ r /\ blank l = true /\ blank r = true /\
    equalsIgnoreCase core "gpt-5-mini" = true.
Proof.
  unfold supportsTemperature, equalsIgnoreCase.
  rewrite negb_false_iff, String.eqb_eq. split.
  - intros H. destruct (trim_split m) as [l [r [E [Bl Br]]]].
    exists l, (trim m), r. repeat split; try assumption.
    apply String.eqb_eq. now rewrite H.
  - intros [l [core [r [E [Bl [Br H]]]]]]. apply String.eqb_eq in H.
    subst m. rewrite <- trim_toLowerCase, !toLowerCase_app, trim_padded.
    + now rewrite H.
    + now rewrite blank_toLowerCase.
    + now rewrite blank_toLowerCase.
Qed.

(** C1, as stated, fails: the identifier " gpt-5-mini" (a leading space)
    is not "gpt-5-mini" under an exact case-insensitive comparison, yet the
    request [generateNote] sends for it has no temperature field. *)
Lemma exact_match_refuted :
  let s := {| apiKey := "sk-test"; transcriptionModel := "whisper-1";
              noteModel := " gpt-5-mini"; notePrompt := "Summarise." |} in
  equalsIgnoreCase (noteModel s) "gpt-5-mini" = false /\
  exists body,
    generateNote_request s "hello" = Ok (ChatRequest "Bearer sk-test" body) /\
    temperature body = None.
Proof.
  split; [reflexivity|]. eexists. split; reflexivity.
Qed.

(** C1, amended: whenever [generateNote] sends its request (credential and
    note model identifier both non-empty), the body names the configured
    model, and its temperature field is omitted exactly when the
    identifier, with the white space around it removed, is "gpt-5-mini" up
    to letter case; for every other identifier the field is there and is
    0.2. *)
Theorem temperature_omitted_iff_trimmed_match (s : VoiceNoteSettings) (transcript : string) :
  apiKey s <> "" -> noteModel s <> "" ->
  exists body,
    generateNote_request s transcript = Ok (ChatRequest ("Bearer " +:+ apiKey s) body) /\
    model body = noteModel s /\
    (temperature body = None <->
       exists l core r,
         noteModel s = l +:+ core +:+ r /\ blank l = true /\ blank r = true /\
         equalsIgnoreCase core "gpt-5-mini" = true) /\
    (temperature body = None \/ temperature body = Some 0.2%Q).
Proof.
  intros Hk Hm. apply truthy_true in Hk, Hm.
  exists (generateNote_body s transcript).
  unfold generateNote_request. rewrite Hk, Hm. simpl.
  split; [reflexivity|].
  rewrite <- supportsTemperature_false_iff.
  unfold generateNote_body.
  destruct (supportsTemperature (noteModel s)); simpl.
  - split; [reflexivity|]. split; [|now right].
    split; discriminate.
  - split; [reflexivity|]. split; [|now left].
    split; reflexivity.
Qed.

(** An instance: "GPT-5-Mini " with a trailing space. *)
Lemma temperature_omitted_iff_trimmed_match_witness :
  exists body,
    generateNote_request
      {| apiKey := "sk-test"; transcriptionModel := "whisper-1";
         noteModel := "GPT-5-Mini "; notePrompt := "Summarise." |} "hello"
    = Ok (ChatRequest "Bearer sk-test" body) /\ temperature body = None.
Proof.
  destruct (temperature_omitted_iff_trimmed_match
              {| apiKey := "sk-test"; transcriptionModel := "whisper-1";
                 noteModel := "GPT-5-Mini "; notePrompt := "Summarise." |} "hello")
    as [body [E [_ [[_ T] _]]]]; [discriminate | discriminate |].
  exists body. split; [exact E|].
  apply T. exists "", "GPT-5-Mini", " ". repeat split.
Defined.

(** ** Counting the parked calls *)
Section Counting.
Variable f : Task -> bool.

Lemma count_app ts us : count f (ts ++ us) = count f ts + count f us.
Proof. unfold count. now rewrite List.filter_app, length_app. Qed.

Lemma count_cons u ts :
  count f (u :: ts) = (if f u then 1 else 0) + count f ts.
Proof. unfold count. simpl. now destruct (f u). Qed.

Lemma count_delete ts : forall i t,
  ts !! i = Some t ->
  count f ts = count f (delete i ts) + (if f t then 1 else 0).
Proof.
  induction ts as [|u ts IH]; intros [|i] t H; simpl in *; try discriminate.
  - injection H as ->. rewrite count_cons. lia.
  - rewrite !count_cons, (IH i t H). lia.
Qed.

Lemma count_insert ts : forall i t t',
  ts !! i = Some t -> f t' = f t ->
  count f (<[i := t']> ts) = count f ts.
Proof.
  induction ts as [|u ts IH]; intros [|i] t t' H E; simpl in *; try discriminate.
  - injection H as ->. now rewrite !count_cons, E.
  - now rewrite !count_cons, (IH i t t' H E).
Qed.
End Counting.

(** ** Stage A: the transcription response *)

(** C4.  A transcription response whose JSON has the text
    "  hello world  " makes Stage A return "hello world"; an empty or
    absent text field makes it throw "Transcription returned no text." (the
    EmptyResult error).  In the pipeline: the trimmed text is what Stage B
    sends as the transcript, and on the empty result the attempt ends with
    that notice and no Stage B request. *)
Theorem transcription_text_trimmed_or_empty :
  (forall raw,
     transcribeAudio_result
       (Ok {| ok := true; text := raw;
              json := Ok {| textField := Some "  hello world  " |} |})
     = Ok "hello world") /\
  (forall raw,
     transcribeAudio_result
       (Ok {| ok := true; text := raw; json := Ok {| textField := Some "" |} |})
     = Throw (ErrorObject "Transcription returned no text.")) /\
  (forall raw,
     transcribeAudio_result
       (Ok {| ok := true; text := raw; json := Ok {| textField := None |} |})
     = Throw (ErrorObject "Transcription returned no text.")) /\
  (forall w i raw,
     tasks w !! i = Some TranscribeAwaitingFetch ->
     apiKey (settings w) <> "" -> noteModel (settings w) <> "" ->
     exists w',
       step (TranscriptionSettled i
               (Ok {| ok := true; text := raw;
                      json := Ok {| textField := Some "  hello world  " |} |})) w
       = Some w' /\
       requests w' = requests w ++
         [ChatRequest ("Bearer " +:+ apiKey (settings w))
            (generateNote_body (settings w) "hello world")] /\
       tasks w' = <[i := GenerateAwaitingFetch]> (tasks w)) /\
  (forall w i raw t,
     tasks w !! i = Some TranscribeAwaitingFetch ->
     t = Some "" \/ t = None ->
     exists w',
       step (TranscriptionSettled i
               (Ok {| ok := true; text := raw; json := Ok {| textField := t |} |})) w
       = Some w' /\
       notices w' = notices w ++ ["Transcription returned no text."] /\
       requests w' = requests w /\
       tasks w' = delete i (tasks w) /\
       state w' = idle).
Proof.
  repeat split; try reflexivity.
  - intros w i raw Ht Hk Hm. apply truthy_true in Hk, Hm.
    eexists. split.
    + simpl. rewrite Ht. reflexivity.
    + unfold stopRecording_transcribed. simpl.
      unfold generateNote_request. rewrite Hk, Hm. simpl.
      split; reflexivity.
  - intros w i raw t Ht [-> | ->]; (eexists; split;
      [simpl; rewrite Ht; reflexivity | repeat split; reflexivity]).
Qed.

(** An instance: one attempt waiting for its transcription. *)
Lemma transcription_text_trimmed_or_empty_witness :
  let w := set_tasks [TranscribeAwaitingFetch]
             (loaded {| apiKey := "sk-test"; transcriptionModel := "whisper-1";
                        noteModel := "gpt-4o-mini"; notePrompt := "Summarise." |}
                true None) in
  (exists w',
     step (TranscriptionSettled 0
             (Ok {| ok := true; text := "{}";
                    json := Ok {| textField := Some "  hello world  " |} |})) w
     = Some w' /\ tasks w' = [GenerateAwaitingFetch]) /\
  (exists w',
     step (TranscriptionSettled 0
             (Ok {| ok := true; text := "{}"; json := Ok {| textField := None |} |})) w
     = Some w' /\ notices w' = ["Transcription returned no text."]).
Proof.
  intros w.
  destruct transcription_text_trimmed_or_empty as [_ [_ [_ [A B]]]].
  split.
  - destruct (A w 0 "{}") as [w' [E [_ T]]];
      [reflexivity | discriminate | discriminate |].
    exists w'. split; [exact E | exact T].
  - destruct (B w 0 "{}" None) as [w' [E [N _]]];
      [reflexivity | now right |].
    exists w'. split; [exact E | exact N].
Defined.

(** ** Non-success responses *)

Lemma transcribeAudio_result_not_ok (response : Response TranscriptionData) :
  ok response = false ->
  transcribeAudio_result (Ok response)
  = Throw (ErrorObject ("Transcription failed: " +:+ text response)).
Proof. intros H. unfold transcribeAudio_result. simpl. now rewrite H. Qed.

Lemma generateNote_result_not_ok (response : Response CompletionData) :
  ok response = false ->
  generateNote_result (Ok response)
  = Throw (ErrorObject ("Note creation failed: " +:+ text response)).
Proof. intros H. unfold generateNote_result. simpl. now rewrite H. Qed.

(** Leaving through [catch] and [finally] ends one attempt. *)
Lemma inFlight_settled w w1 i t :
  tasks w !! i = Some t -> pipelineTask t = true ->
  tasks w1 = delete i (tasks w) ->
  inFlight w1 < inFlight w.
Proof.
  intros Ht Hp E. unfold inFlight.
  rewrite E, (count_delete pipelineTask (tasks w) i t Ht), Hp. lia.
Qed.

(** C5.  A response with [ok] false, from the transcription call or from
    the note-composition call, fails the attempt: the notice shown is the
    stage's failure text followed by the response body (so it contains the
    body), the attempt is over and the state idle, and the next stage did
    not run: after a failed Stage A no further request is sent, after a
    failed Stage B nothing is inserted into the document. *)
Theorem remote_failure_reported_and_aborts (w : World) (i : nat) :
  (forall response : Response TranscriptionData,
     tasks w !! i = Some TranscribeAwaitingFetch -> ok response = false ->
     exists w' notice,
       step (TranscriptionSettled i (Ok response)) w = Some w' /\
       notices w' = notices w ++ [notice] /\
       notice = "Transcription failed: " +:+ text response /\
       includes (text response) notice = true /\
       requests w' = requests w /\ activeView w' = activeView w /\
       tasks w' = delete i (tasks w) /\ inFlight w' < inFlight w /\
       state w' = idle) /\
  (forall response : Response CompletionData,
     tasks w !! i = Some GenerateAwaitingFetch -> ok response = false ->
     exists w' notice,
       step (CompletionSettled i (Ok response)) w = Some w' /\
       notices w' = notices w ++ [notice] /\
       notice = "Note creation failed: " +:+ text response /\
       includes (text response) notice = true /\
       requests w' = requests w /\ activeView w' = activeView w /\
       tasks w' = delete i (tasks w) /\ inFlight w' < inFlight w /\
       state w' = idle).
Proof.
  split; intros response Ht Hok; eexists; eexists.
  - split; [simpl; rewrite Ht; reflexivity|].
    unfold stopRecording_transcribed.
    rewrite (transcribeAudio_result_not_ok _ Hok). simpl.
    repeat split.
    + apply includes_suffix.
    + now apply (inFlight_settled w _ i TranscribeAwaitingFetch).
  - split; [simpl; rewrite Ht; reflexivity|].
    unfold stopRecording_composed.
    rewrite (generateNote_result_not_ok _ Hok). simpl.
    repeat split.
    + apply includes_suffix.
    + now apply (inFlight_settled w _ i GenerateAwaitingFetch).
Qed.

(** An instance: the transcription call answers "quota exceeded". *)
Lemma remote_failure_reported_and_aborts_witness :
  let w := set_tasks [TranscribeAwaitingFetch]
             (setState processing
                (loaded {| apiKey := "sk-test"; transcriptionModel := "whisper-1";
                           noteModel := "gpt-4o-mini"; notePrompt := "Summarise." |}
                   true None)) in
  exists w',
    step (TranscriptionSettled 0
            (Ok {| ok := false; text := "quota exceeded";
                   json := Throw OtherValue |})) w = Some w' /\
    notices w' = ["Transcription failed: quota exceeded"] /\
    requests w' = [] /\ state w' = idle.
Proof.
  intros w.
  destruct (proj1 (remote_failure_reported_and_aborts w 0)
              {| ok := false; text := "quota exceeded"; json := Throw OtherValue |})
    as [w' [notice [E [N [-> [_ [R [_ [_ [_ S]]]]]]]]]];
    [reflexivity | reflexivity |].
  exists w'. repeat split; assumption.
Defined.

(** ** Stage B's result and delivery *)

Lemma generateNote_result_content (response : Response CompletionData) data content :
  ok response = true -> json response = Ok data ->
  firstChoiceContent data = Some content -> content <> "" ->
  generateNote_result (Ok response) = Ok (trim content).
Proof.
  intros Hok Hj Hc Hne. apply truthy_true in Hne.
  unfold generateNote_result. simpl. now rewrite Hok, Hj; simpl; rewrite Hc, Hne.
Qed.

Lemma composed_delivered w i fetched note ed :
  generateNote_result fetched = Ok note -> activeView w = Some ed ->
  stopRecording_composed i fetched w
  = set_tasks (delete i (tasks w))
      (finally_ (Notice "Voice note inserted."
                   (set_activeView (Some (replaceSelection (note +:+ LF) ed)) w))).
Proof.
  intros Hg Hv. unfold stopRecording_composed, insertNote.
  now rewrite Hg; simpl; rewrite Hv.
Qed.

Lemma composed_undeliverable w i fetched note :
  generateNote_result fetched = Ok note -> activeView w = None ->
  stopRecording_composed i fetched w
  = set_tasks (delete i (tasks w))
      (finally_ (Notice "Open a note to insert the transcript." w)).
Proof.
  intros Hg Hv. unfold stopRecording_composed, insertNote.
  now rewrite Hg; simpl; rewrite Hv.
Qed.

(** C6.  When Stage B succeeds with a note (the trimmed first-choice
    content), delivery replaces the selection of the active editor by the
    note followed by one line feed, the cursor left behind it, and reports
    success.  Without an active editor the attempt fails with the
    "Open a note" notice: the world it leaves is built from the world
    before and the notice alone, so the note text is kept nowhere (no
    queue, no retry), and an editor that becomes active later is left as it
    is. *)
Theorem note_inserted_with_one_line_break
    (w : World) (i : nat) (response : Response CompletionData)
    (data : CompletionData) (content : string) :
  tasks w !! i = Some GenerateAwaitingFetch ->
  ok response = true -> json response = Ok data ->
  firstChoiceContent data = Some content -> content <> "" ->
  generateNote_result (Ok response) = Ok (trim content) /\
  (forall ed, activeView w = Some ed ->
     exists w',
       step (CompletionSettled i (Ok response)) w = Some w' /\
       activeView w' = Some {| before := before ed +:+ (trim content +:+ LF);
                               selection := ""; after := after ed |} /\
       notices w' = notices w ++ ["Voice note inserted."] /\
       tasks w' = delete i (tasks w) /\ state w' = idle) /\
  (activeView w = None ->
     exists w',
       step (CompletionSettled i (Ok response)) w = Some w' /\
       w' = set_tasks (delete i (tasks w))
              (finally_ (Notice "Open a note to insert the transcript." w)) /\
       notices w' = notices w ++ ["Open a note to insert the transcript."] /\
       activeView w' = None /\ requests w' = requests w /\
       tasks w' = delete i (tasks w) /\ state w' = idle /\
       forall ed, exists w'',
         step (ActiveViewChanged (Some ed)) w' = Some w'' /\
         activeView w'' = Some ed /\ tasks w'' = tasks w' /\
         requests w'' = requests w').
Proof.
  intros Ht Hok Hj Hc Hne.
  pose proof (generateNote_result_content response data content Hok Hj Hc Hne) as Hg.
  split; [exact Hg|]. split.
  - intros ed Hv. eexists. split; [simpl; rewrite Ht; reflexivity|].
    rewrite (composed_delivered w i _ _ ed Hg Hv). repeat split.
  - intros Hv. eexists. split; [simpl; rewrite Ht; reflexivity|].
    rewrite (composed_undeliverable w i _ _ Hg Hv). simpl.
    repeat split; try assumption.
    intros ed. eexists. repeat split.
Qed.

(** An instance: the note "Title", line feed, "- point" replaces the
    selected "old". *)
Lemma note_inserted_with_one_line_break_witness :
  let w := set_tasks [GenerateAwaitingFetch]
             (setState processing
                (loaded DEFAULT_SETTINGS true
                   (Some {| before := "# Log" +:+ LF; selection := "old";
                            after := LF +:+ "end" |}))) in
  exists w',
    step (CompletionSettled 0
            (Ok {| ok := true; text := "";
                   json := Ok {| choicesField :=
                     Some [ {| messageField :=
                       Some {| contentField :=
                         Some ("Title" +:+ LF +:+ "- point") |} |} ] |} |})) w
    = Some w' /\
    activeView w' =
      Some {| before := "# Log" +:+ LF +:+ ("Title" +:+ LF +:+ "- point" +:+ LF);
              selection := ""; after := LF +:+ "end" |}.
Proof.
  intros w.
  destruct (note_inserted_with_one_line_break w 0
              {| ok := true; text := "";
                 json := Ok {| choicesField :=
                   Some [ {| messageField :=
                     Some {| contentField :=
                       Some ("Title" +:+ LF +:+ "- point") |} |} ] |} |}
              _ ("Title" +:+ LF +:+ "- point")
              eq_refl eq_refl eq_refl eq_refl)
    as [_ [D _]]; [discriminate|].
  destruct (D _ eq_refl) as [w' [E [V _]]].
  exists w'. split; [exact E | exact V].
Defined.

(** C10.  The non-empty check of Stage B looks at the raw first-choice
    content and the trimming comes after it.  An absent or empty content
    throws "Note creation returned no content." (in the pipeline: that
    notice, the document untouched); every non-empty content passes and the
    stage returns it trimmed.  So a content that is not empty but all white
    space passes the check, Stage B returns the empty string, and delivery
    inserts a single line feed and reports success. *)
Theorem blank_content_inserts_line_break :
  (forall (response : Response CompletionData) (data : CompletionData),
     ok response = true -> json response = Ok data ->
     firstChoiceContent data = None \/ firstChoiceContent data = Some "" ->
     generateNote_result (Ok response)
     = Throw (ErrorObject "Note creation returned no content.")) /\
  (forall (response : Response CompletionData) (data : CompletionData)
          (content : string),
     ok response = true -> json response = Ok data ->
     firstChoiceContent data = Some content -> content <> "" ->
     generateNote_result (Ok response) = Ok (trim content)) /\
  (forall (w : World) (i : nat) (response : Response CompletionData)
          (data : CompletionData) (content : string) (ed : Editor),
     tasks w !! i = Some GenerateAwaitingFetch ->
     ok response = true -> json response = Ok data ->
     firstChoiceContent data = Some content ->
     content <> "" -> blank content = true ->
     activeView w = Some ed ->
     generateNote_result (Ok response) = Ok "" /\
     exists w',
       step (CompletionSettled i (Ok response)) w = Some w' /\
       activeView w' = Some (replaceSelection LF ed) /\
       notices w' = notices w ++ ["Voice note inserted."] /\
       tasks w' = delete i (tasks w) /\ state w' = idle) /\
  (forall (w : World) (i : nat) (response : Response CompletionData)
          (data : CompletionData),
     tasks w !! i = Some GenerateAwaitingFetch ->
     ok response = true -> json response = Ok data ->
     firstChoiceContent data = None \/ firstChoiceContent data = Some "" ->
     exists w',
       step (CompletionSettled i (Ok response)) w = Some w' /\
       activeView w' = activeView w /\
       notices w' = notices w ++ ["Note creation returned no content."] /\
       tasks w' = delete i (tasks w) /\ state w' = idle).
Proof.
  assert (E : forall (response : Response CompletionData) data,
            ok response = true -> json response = Ok data ->
            firstChoiceContent data = None \/ firstChoiceContent data = Some "" ->
            generateNote_result (Ok response)
            = Throw (ErrorObject "Note creation returned no content.")).
  { intros response data Hok Hj Hc. unfold generateNote_result. cbn [bind].
    rewrite Hok, Hj. cbn [negb bind]. now destruct Hc as [-> | ->]. }
  split; [exact E|]. split; [exact generateNote_result_content|]. split.
  - intros w i response data content ed Ht Hok Hj Hc Hne Hb Hv.
    pose proof (generateNote_result_content response data content Hok Hj Hc Hne)
      as Hg.
    rewrite (trim_blank _ Hb) in Hg.
    split; [exact Hg|].
    eexists. split; [simpl; rewrite Ht; reflexivity|].
    rewrite (composed_delivered w i _ _ ed Hg Hv). repeat split.
  - intros w i response data Ht Hok Hj Hc.
    eexists. split; [simpl; rewrite Ht; reflexivity|].
    unfold stopRecording_composed. rewrite (E response data Hok Hj Hc).
    cbn [bind]. repeat split.
Qed.

(** Instances: a content of three spaces, and an empty content. *)
Lemma blank_content_inserts_line_break_witness :
  let ed := {| before := "abc"; selection := ""; after := "" |} in
  let w := set_tasks [GenerateAwaitingFetch]
             (setState processing (loaded DEFAULT_SETTINGS true (Some ed))) in
  (exists w',
     step (CompletionSettled 0
             (Ok {| ok := true; text := "";
                    json := Ok {| choicesField :=
                      Some [ {| messageField :=
                        Some {| contentField := Some "   " |} |} ] |} |})) w
     = Some w' /\
     activeView w' = Some {| before := "abc" +:+ LF; selection := ""; after := "" |} /\
     notices w' = ["Voice note inserted."]) /\
  (exists w',
     step (CompletionSettled 0
             (Ok {| ok := true; text := "";
                    json := Ok {| choicesField :=
                      Some [ {| messageField :=
                        Some {| contentField := Some "" |} |} ] |} |})) w
     = Some w' /\
     activeView w' = Some ed /\
     notices w' = ["Note creation returned no content."]).
Proof.
  intros ed w.
  destruct blank_content_inserts_line_break as [_ [_ [B C]]].
  split.
  - destruct (B w 0
                {| ok := true; text := "";
                   json := Ok {| choicesField :=
                     Some [ {| messageField :=
                       Some {| contentField := Some "   " |} |} ] |} |}
                _ "   " ed eq_refl eq_refl eq_refl eq_refl)
      as [_ [w' [E [V [N _]]]]]; [discriminate | reflexivity | reflexivity |].
    exists w'. repeat split; assumption.
  - destruct (C w 0
                {| ok := true; text := "";
                   json := Ok {| choicesField :=
                     Some [ {| messageField :=
                       Some {| contentField := Some "" |} |} ] |} |}
                _ eq_refl eq_refl eq_refl)
      as [w' [E [V [N _]]]]; [now right|].
    exists w'. repeat split; assumption.
Defined.

(** ** The parked call at the end of the list *)

Lemma snoc_lookup (ts : list Task) t : (ts ++ [t]) !! length ts = Some t.
Proof. now apply list_lookup_middle. Qed.

Lemma snoc_delete (ts : list Task) t : delete (length ts) (ts ++ [t]) = ts.
Proof. now rewrite delete_middle, app_nil_r. Qed.

Lemma snoc_insert (ts : list Task) t u : <[length ts := u]> (ts ++ [t]) = ts ++ [u].
Proof.
  induction ts as [|v ts IH]; simpl; [reflexivity | now rewrite IH].
Qed.

(** ** How the number of attempts in flight moves *)

Lemma inFlight_suspend t w :
  inFlight (suspend t w) = inFlight w + (if pipelineTask t then 1 else 0).
Proof.
  unfold inFlight, suspend. simpl. rewrite count_app, count_cons.
  change (count pipelineTask []) with 0. destruct (pipelineTask t); lia.
Qed.

Lemma inFlight_toggleRecording w : inFlight w <= inFlight (toggleRecording w).
Proof.
  unfold toggleRecording, startRecording, stopRecording.
  destruct (state w); [destruct (hasGetUserMedia w) | destruct (mediaRecorder w) |];
    simpl; try rewrite inFlight_suspend; unfold inFlight; simpl; lia.
Qed.

Lemma inFlight_stopIfRecording w : inFlight w <= inFlight (stopIfRecording w).
Proof.
  unfold stopIfRecording, stopRecording.
  destruct (state w); [| destruct (mediaRecorder w) |];
    simpl; try rewrite inFlight_suspend; unfold inFlight; simpl; lia.
Qed.

(** A stage that resumes either parks again, the count unchanged, or
    leaves through [catch] and [finally]. *)
Lemma advance_cases i t next r w :
  tasks w !! i = Some t -> pipelineTask t = true -> pipelineTask next = true ->
  let w' := advance i next r w in
  inFlight w' = inFlight w \/
  (exists e, r = Throw e /\ w' = set_tasks (delete i (tasks w)) (finally_ (catch_ e w))).
Proof.
  intros Ht Hp Hn. destruct r as [request | e]; simpl.
  - left. unfold inFlight. simpl.
    apply (count_insert pipelineTask (tasks w) i t next Ht). congruence.
  - right. now exists e.
Qed.

(** ** The end of an attempt *)

(** Only the [finally] arm ends an attempt: a step after which fewer
    attempts are in flight has run [finally_] last. *)
Lemma settling_step_runs_finally e w w' :
  step e w = Some w' -> inFlight w' < inFlight w ->
  exists w1, w' = set_tasks (tasks w') (finally_ w1).
Proof.
  destruct e as [| |i granted|recorderId data|i|i fetched|i fetched|s|view];
    simpl; intros Hs Hlt.
  - injection Hs as <-. pose proof (inFlight_toggleRecording w). lia.
  - injection Hs as <-. pose proof (inFlight_stopIfRecording w). lia.
  - destruct (tasks w !! i) as [[]|] eqn:Ht; try discriminate.
    pose proof (count_delete pipelineTask (tasks w) i _ Ht) as Hc. simpl in Hc.
    destruct granted; injection Hs as <-; unfold inFlight in Hlt; simpl in Hlt; lia.
  - destruct (delivering recorderId w); [|discriminate]. injection Hs as <-.
    unfold onDataAvailable in Hlt. destruct (0 <? size data);
      unfold inFlight in Hlt; simpl in Hlt; lia.
  - destruct (tasks w !! i) as [[]|] eqn:Ht; try discriminate.
    injection Hs as <-. unfold stopRecording_stopped in *.
    match goal with |- context [advance i ?n ?r ?v] =>
      destruct (advance_cases i _ n r v Ht eq_refl eq_refl) as [E | [e [_ E]]] end.
    + unfold inFlight in *. simpl in *. lia.
    + rewrite E. eexists. reflexivity.
  - destruct (tasks w !! i) as [[]|] eqn:Ht; try discriminate.
    injection Hs as <-. unfold stopRecording_transcribed in *.
    match goal with |- context [advance i ?n ?r ?v] =>
      destruct (advance_cases i _ n r v Ht eq_refl eq_refl) as [E | [e [_ E]]] end.
    + lia.
    + rewrite E. eexists. reflexivity.
  - destruct (tasks w !! i) as [[]|] eqn:Ht; try discriminate.
    injection Hs as <-. unfold stopRecording_composed.
    destruct (bind _ _); eexists; reflexivity.
  - injection Hs as <-. unfold inFlight in Hlt. simpl in Hlt. lia.
  - injection Hs as <-. unfold inFlight in Hlt. simpl in Hlt. lia.
Qed.

(** From the Recording-to-Processing transition on, whatever the two
    remote calls answer, the attempt ends within its three settlements. *)
Lemma attempt_runs_to_its_end w recorder fetchedA fetchedB :
  state w = recording -> mediaRecorder w = Some recorder ->
  exists k w',
    k <= 3 /\
    run (CallToggleRecording ::
         take k (attemptEvents (length (tasks w)) fetchedA fetchedB)) w = Some w' /\
    tasks w' = tasks w /\ state w' = idle /\ chunks w' = [].
Proof.
  intros Hs Hr.
  remember (length (tasks w)) as i eqn:Hi.
  remember (toggleRecording w) as w1 eqn:H1.
  assert (T1 : tasks w1 = tasks w ++ [StopAwaitingRecorder recorder]).
  { rewrite H1. unfold toggleRecording, stopRecording. now rewrite Hs, Hr. }
  assert (L1 : tasks w1 !! i = Some (StopAwaitingRecorder recorder))
    by (rewrite T1, Hi; apply snoc_lookup).
  remember (stopRecording_stopped i recorder w1) as w2 eqn:H2.
  assert (S2 : run [CallToggleRecording; RecorderStopped i] w = Some w2).
  { cbn [run step]. rewrite <- H1, L1. now rewrite H2. }
  (* the recorder has stopped: Stage A sends its request or throws *)
  pose proof H2 as C2. unfold stopRecording_stopped in C2.
  match type of C2 with context [advance _ _ ?r ?v] =>
    destruct r as [requestA | eA]; cbn [advance] in C2 end.
  2:{ exists 1, w2. split; [lia|]. split; [exact S2|]. rewrite C2. cbn.
      rewrite T1, Hi, snoc_delete. repeat split. }
  assert (T2 : tasks w2 = tasks w ++ [TranscribeAwaitingFetch]).
  { rewrite C2. cbn. rewrite T1, Hi. apply snoc_insert. }
  assert (L2 : tasks w2 !! i = Some TranscribeAwaitingFetch)
    by (rewrite T2, Hi; apply snoc_lookup).
  clear C2.
  remember (stopRecording_transcribed i fetchedA w2) as w3 eqn:H3.
  assert (S3 : run [CallToggleRecording; RecorderStopped i;
                    TranscriptionSettled i fetchedA] w = Some w3).
  { cbn [run step] in *. rewrite <- H1, L1 in *.
    injection S2 as ->. now rewrite L2, H3. }
  (* the transcription has settled: Stage B sends its request or throws *)
  pose proof H3 as C3. unfold stopRecording_transcribed in C3.
  match type of C3 with context [advance _ _ ?r ?v] =>
    destruct r as [requestB | eB]; cbn [advance] in C3 end.
  2:{ exists 2, w3. split; [lia|]. split; [exact S3|]. rewrite C3. cbn.
      rewrite T2, Hi, snoc_delete. repeat split. }
  assert (T3 : tasks w3 = tasks w ++ [GenerateAwaitingFetch]).
  { rewrite C3. cbn. rewrite T2, Hi. apply snoc_insert. }
  assert (L3 : tasks w3 !! i = Some GenerateAwaitingFetch)
    by (rewrite T3, Hi; apply snoc_lookup).
  clear C3.
  (* the completion has settled: success or failure, [finally] runs *)
  exists 3, (stopRecording_composed i fetchedB w3). split; [lia|]. split.
  { cbn [run step take attemptEvents] in *. rewrite <- H1, L1 in *.
    rewrite <- H2 in *. rewrite L2 in *. injection S3 as ->. now rewrite L3. }
  unfold stopRecording_composed.
  destruct (bind _ _) as [w4 | e] eqn:E4; cbn.
  - assert (T4 : tasks w4 = tasks w3).
    { destruct (generateNote_result fetchedB); cbn in E4; [|discriminate].
      unfold insertNote in E4. destruct (activeView w3); [|discriminate].
      injection E4 as <-. reflexivity. }
    rewrite T4, T3, Hi, snoc_delete. repeat split.
  - rewrite T3, Hi, snoc_delete. repeat split.
Qed.

(** C2.  Whatever event ends a Processing attempt, and in whatever
    interleaving (success, or a failure of any kind thrown on the way),
    the step that ends it has run the [finally] arm last: the state is idle
    and the chunk buffer empty, the same in both arms.  And every attempt
    does end: from the Recording-to-Processing transition, for all answers
    of the two remote calls, it is over within its three settlements, in
    state idle with an empty buffer. *)
Theorem processing_attempt_settles_idle :
  (forall e w w',
     step e w = Some w' -> inFlight w' < inFlight w ->
     state w' = idle /\ chunks w' = [] /\
     exists w1, w' = set_tasks (tasks w') (finally_ w1)) /\
  (forall w recorder fetchedA fetchedB,
     state w = recording -> mediaRecorder w = Some recorder ->
     exists k w',
       k <= 3 /\
       run (CallToggleRecording ::
            take k (attemptEvents (length (tasks w)) fetchedA fetchedB)) w = Some w' /\
       tasks w' = tasks w /\ state w' = idle /\ chunks w' = []).
Proof.
  split.
  - intros e w w' Hs Hlt.
    destruct (settling_step_runs_finally e w w' Hs Hlt) as [w1 E].
    rewrite E. repeat split. now exists w1.
  - intros w recorder fetchedA fetchedB Hs Hr.
    now apply (attempt_runs_to_its_end w recorder).
Qed.

(** An instance: the completion call rejects with a value that is not an
    [Error]. *)
Lemma processing_attempt_settles_idle_witness :
  let w := set_chunks [ {| size := 7; type := "audio/webm" |} ]
             (set_tasks [GenerateAwaitingFetch]
                (setState processing (loaded DEFAULT_SETTINGS true None))) in
  let w' := stopRecording_composed 0 (Throw OtherValue) w in
  step (CompletionSettled 0 (Throw OtherValue)) w = Some w' /\
  inFlight w' < inFlight w /\
  state w' = idle /\ chunks w' = [] /\
  notices w' = ["Failed to process recording."].
Proof.
  intros w w'.
  assert (Hs : step (CompletionSettled 0 (Throw OtherValue)) w = Some w')
    by reflexivity.
  assert (Hlt : inFlight w' < inFlight w) by (vm_compute; lia).
  destruct (proj1 processing_attempt_settles_idle _ w w' Hs Hlt) as [S [C _]].
  repeat split; assumption || reflexivity.
Defined.

(** ** Starting a recording *)

(** The two paths of a toggle in state idle that do inform the user.
    When the capture capability is missing
    ([navigator.mediaDevices?.getUserMedia] undefined) nothing is acquired,
    the state stays idle and the notice "Microphone access is not
    available." is shown; when it is there and the acquisition succeeds,
    the service holds the new recorder, which records, the buffer starts
    empty, the state is recording (the state callback has seen it) and the
    notice "Recording started." is shown. *)
Theorem toggle_from_idle (w : World) :
  state w = idle ->
  (hasGetUserMedia w = false ->
     exists w',
       step CallToggleRecording w = Some w' /\
       state w' = idle /\ mediaRecorder w' = mediaRecorder w /\
       capturing w' = capturing w /\ tasks w' = tasks w /\
       stateChanges w' = stateChanges w /\
       notices w' = notices w ++ ["Microphone access is not available."]) /\
  (hasGetUserMedia w = true ->
     forall media, exists w' recorder,
       run [CallToggleRecording;
            UserMediaSettled (length (tasks w)) (Ok media)] w = Some w' /\
       state w' = recording /\
       mediaRecorder w' = Some recorder /\
       capturing w' = capturing w ++ [rid recorder] /\
       chunks w' = [] /\ tasks w' = tasks w /\
       stateChanges w' = stateChanges w ++ [recording] /\
       notices w' = notices w ++ ["Recording started."]).
Proof.
  intros Hs. split; intros Hg.
  - eexists. split; [reflexivity|].
    unfold toggleRecording, startRecording. rewrite Hs, Hg. cbn.
    repeat split; assumption.
  - intros media. eexists. eexists. split.
    + cbn [run step]. unfold toggleRecording, startRecording. rewrite Hs, Hg.
      cbn [negb suspend tasks set_tasks]. rewrite snoc_lookup. reflexivity.
    + cbn. rewrite snoc_delete. repeat split.
Qed.

(** Instances: the freshly loaded plugin without and with the capability. *)
Lemma toggle_from_idle_witness :
  (exists w',
     step CallToggleRecording (loaded DEFAULT_SETTINGS false None) = Some w' /\
     state w' = idle /\
     notices w' = ["Microphone access is not available."]) /\
  (exists w',
     run [CallToggleRecording;
          UserMediaSettled 0 (Ok {| opusSupported := true; nativeMimeType := "" |})]
       (loaded DEFAULT_SETTINGS true None) = Some w' /\
     state w' = recording /\ notices w' = ["Recording started."]).
Proof.
  split.
  - destruct (proj1 (toggle_from_idle (loaded DEFAULT_SETTINGS false None) eq_refl)
                eq_refl) as [w' [E [S [_ [_ [_ [_ N]]]]]]].
    exists w'. repeat split; assumption.
  - destruct (proj2 (toggle_from_idle (loaded DEFAULT_SETTINGS true None) eq_refl)
                eq_refl {| opusSupported := true; nativeMimeType := "" |})
      as [w' [r [E [S [_ [_ [_ [_ [_ N]]]]]]]]].
    exists w'. repeat split; assumption.
Defined.

(** A start whose [getUserMedia] rejects (permission denied, no device)
    ends there: the world is as before the toggle, and no notice is
    shown. *)
Lemma acquisition_rejected_is_silent w e :
  state w = idle -> hasGetUserMedia w = true ->
  run [CallToggleRecording; UserMediaSettled (length (tasks w)) (Throw e)] w
  = Some w.
Proof.
  intros Hs Hg. cbn [run step]. unfold toggleRecording, startRecording.
  rewrite Hs, Hg. cbn [negb suspend tasks set_tasks].
  rewrite snoc_lookup, snoc_delete. now destruct w.
Qed.

(** C9, at its failing input.  A toggle in state idle on a host that has
    [getUserMedia] but no capture device (or whose user denies access): the
    promise rejects, and line 54 stands in no [try], so [startRecording]
    ends there and the rejection leaves through [toggleRecording], which
    main.ts calls without awaiting or catching.  Acquiring the handle has
    failed and the state is still idle, but no notice was shown: the user
    is not informed. *)
Lemma no_capture_device_shows_no_notice :
  option_map
    (fun w => (state w, mediaRecorder w, notices w, stateChanges w, tasks w))
    (run [CallToggleRecording;
          UserMediaSettled 0 (Throw (ErrorObject "Requested device not found"))]
       (loaded DEFAULT_SETTINGS true None))
  = Some (idle, None, [], [], []).
Proof. vm_compute. reflexivity. Qed.

(** ** Reading the settings *)

(** C7, as stated, fails: the settings are not read once per cycle.  Each
    stage calls [getSettings()] when it starts, and the second stage starts
    only when the transcription has arrived; an edit made in between
    reaches Stage B alone.  Here one cycle sends its transcription request
    under the first credential and its composition request under the
    second, with the second note model. *)
Lemma one_cycle_two_configurations :
  let s1 := {| apiKey := "key-one"; transcriptionModel := "whisper-1";
               noteModel := "gpt-4o-mini"; notePrompt := "Summarise." |} in
  let s2 := {| apiKey := "key-two"; transcriptionModel := "whisper-1";
               noteModel := "gpt-5-mini"; notePrompt := "Summarise." |} in
  option_map requests
    (run [CallToggleRecording;
          UserMediaSettled 0 (Ok {| opusSupported := true; nativeMimeType := "" |});
          DataAvailable 0 {| size := 512; type := "audio/webm;codecs=opus" |};
          CallToggleRecording;
          RecorderStopped 0;
          SettingsEdited s2;
          TranscriptionSettled 0
            (Ok {| ok := true; text := "";
                   json := Ok {| textField := Some "buy milk" |} |})]
       (loaded s1 true None))
  = Some
      [TranscriptionRequest "Bearer key-one"
         {| fileName := "recording.webm"; fileType := "audio/webm;codecs=opus";
            fileSize := 512 |} "whisper-1" "json";
       ChatRequest "Bearer key-two"
         {| model := "gpt-5-mini";
            messages := [ {| role := system; content := "Summarise." |};
                          {| role := user;
                             content := "Transcript:" +:+ LF +:+ "buy milk" |} ];
            temperature := None |}].
Proof. reflexivity. Qed.

(** Only an edit changes the settings. *)
Lemma settings_stable e w w' :
  step e w = Some w' -> (forall s, e <> SettingsEdited s) ->
  settings w' = settings w.
Proof.
  destruct e as [| |i granted|recorderId data|i|i fetched|i fetched|s|view];
    simpl; intros Hs Hne.
  - injection Hs as <-. unfold toggleRecording, startRecording, stopRecording.
    destruct (state w), (hasGetUserMedia w), (mediaRecorder w); reflexivity.
  - injection Hs as <-. unfold stopIfRecording, stopRecording.
    destruct (state w), (mediaRecorder w); reflexivity.
  - destruct (tasks w !! i) as [[]|]; try discriminate.
    destruct granted; injection Hs as <-; reflexivity.
  - destruct (delivering recorderId w); [|discriminate]. injection Hs as <-.
    unfold onDataAvailable. destruct (0 <? size data); reflexivity.
  - destruct (tasks w !! i) as [[]|]; try discriminate. injection Hs as <-.
    unfold stopRecording_stopped, advance.
    destruct (transcribeAudio_request _ _); reflexivity.
  - destruct (tasks w !! i) as [[]|]; try discriminate. injection Hs as <-.
    unfold stopRecording_transcribed, advance. destruct (bind _ _); reflexivity.
  - destruct (tasks w !! i) as [[]|]; try discriminate. injection Hs as <-.
    unfold stopRecording_composed.
    destruct (generateNote_result fetched); simpl; [|reflexivity].
    unfold insertNote. destruct (activeView w); reflexivity.
  - now elim (Hne s).
  - injection Hs as <-. reflexivity.
Qed.

Lemma settings_stable_run es : forall w w',
  run es w = Some w' ->
  Forall (fun e => forall s, e <> SettingsEdited s) es ->
  settings w' = settings w.
Proof.
  induction es as [|e es IH]; intros w w' Hr Hf; simpl in Hr.
  - now injection Hr as <-.
  - destruct (step e w) as [w1|] eqn:Hs; [|discriminate].
    inversion Hf as [|? ? He Hes]; subst.
    rewrite (IH w1 w' Hr Hes). now apply (settings_stable e).
Qed.

(** C7, amended: the configuration is read from the settings at the start
    of each stage and kept nowhere.  Stage A, when the recorder has
    stopped, sends the credential and the transcription model the settings
    hold at that moment; Stage B, when the transcription has arrived, sends
    the credential, the note model and the instruction text the settings
    hold then.  An edit replaces the settings and touches nothing else, so
    it is seen by every stage that starts after it (the next cycle
    included), and the two stages of a cycle use the same values whenever
    no edit falls between them, as no other event changes the settings. *)
Theorem settings_read_at_each_stage (w : World) (i : nat) :
  (forall recorder,
     tasks w !! i = Some (StopAwaitingRecorder recorder) ->
     apiKey (settings w) <> "" -> transcriptionModel (settings w) <> "" ->
     exists w' file,
       step (RecorderStopped i) w = Some w' /\
       requests w' = requests w ++
         [TranscriptionRequest ("Bearer " +:+ apiKey (settings w)) file
            (transcriptionModel (settings w)) "json"]) /\
  (forall fetched transcript,
     tasks w !! i = Some TranscribeAwaitingFetch ->
     transcribeAudio_result fetched = Ok transcript ->
     apiKey (settings w) <> "" -> noteModel (settings w) <> "" ->
     exists w' body,
       step (TranscriptionSettled i fetched) w = Some w' /\
       requests w' = requests w ++
         [ChatRequest ("Bearer " +:+ apiKey (settings w)) body] /\
       model body = noteModel (settings w) /\
       messages body =
         [ {| role := system; content := notePrompt (settings w) |};
           {| role := user; content := "Transcript:" +:+ LF +:+ transcript |} ]) /\
  (forall s, exists w',
     step (SettingsEdited s) w = Some w' /\
     settings w' = s /\ tasks w' = tasks w /\ state w' = state w /\
     requests w' = requests w /\ chunks w' = chunks w) /\
  (forall es w',
     run es w = Some w' ->
     Forall (fun e => forall s, e <> SettingsEdited s) es ->
     settings w' = settings w).
Proof.
  repeat split.
  - intros recorder Ht Hk Hm. apply truthy_true in Hk, Hm.
    eexists. eexists. split; [simpl; rewrite Ht; reflexivity|].
    unfold stopRecording_stopped, transcribeAudio_request. cbn.
    rewrite Hk, Hm. reflexivity.
  - intros fetched transcript Ht Hr Hk Hm. apply truthy_true in Hk, Hm.
    exists (stopRecording_transcribed i fetched w),
           (generateNote_body (settings w) transcript).
    split; [simpl; rewrite Ht; reflexivity|].
    unfold stopRecording_transcribed. rewrite Hr. cbn [bind].
    unfold generateNote_request. rewrite Hk, Hm. cbn.
    repeat split; unfold generateNote_body;
      destruct (supportsTemperature _); reflexivity.
  - intros s. eexists. repeat split.
  - intros es w'. apply (settings_stable_run es w w').
Qed.

(** An instance: Stage B starting under the settings of the moment. *)
Lemma settings_read_at_each_stage_witness :
  let s := {| apiKey := "key-two"; transcriptionModel := "whisper-1";
              noteModel := "gpt-4o"; notePrompt := "Summarise." |} in
  let w := set_tasks [TranscribeAwaitingFetch]
             (setState processing (loaded s true None)) in
  exists w' body,
    step (TranscriptionSettled 0
            (Ok {| ok := true; text := "";
                   json := Ok {| textField := Some "buy milk" |} |})) w = Some w' /\
    requests w' = [ChatRequest "Bearer key-two" body] /\
    model body = "gpt-4o".
Proof.
  intros s w.
  destruct (settings_read_at_each_stage w 0) as [_ [B _]].
  destruct (B (Ok {| ok := true; text := "";
                     json := Ok {| textField := Some "buy milk" |} |})
              "buy milk" eq_refl eq_refl) as [w' [body [E [R [M _]]]]];
    [discriminate | discriminate |].
  exists w', body. repeat split; assumption.
Defined.

(** ** One session at a time, and where it breaks *)

(** Reduce the field reads and writes of a world, nothing else. *)
Ltac fields :=
  cbn [state mediaRecorder chunks settings hasGetUserMedia activeView notices
       stateChanges requests capturing liveStreams nextRid tasks
       set_state set_mediaRecorder set_chunks set_settings set_activeView
       set_notices set_stateChanges set_requests set_capturing set_liveStreams
       set_nextRid set_tasks Notice setState fetch suspend catch_ finally_
       advance rid] in *.

Lemma counts_delete w i t :
  tasks w !! i = Some t ->
  inFlight w = count pipelineTask (delete i (tasks w))
               + (if pipelineTask t then 1 else 0) /\
  acquiring w = count (fun t => negb (pipelineTask t)) (delete i (tasks w))
                + (if pipelineTask t then 0 else 1).
Proof.
  intros Ht. unfold inFlight, acquiring.
  rewrite (count_delete pipelineTask _ i t Ht).
  rewrite (count_delete (fun t => negb (pipelineTask t)) _ i t Ht).
  destruct (pipelineTask t); simpl; lia.
Qed.

Lemma counts_insert w i t t' :
  tasks w !! i = Some t -> pipelineTask t' = pipelineTask t ->
  count pipelineTask (<[i := t']> (tasks w)) = inFlight w /\
  count (fun t => negb (pipelineTask t)) (<[i := t']> (tasks w)) = acquiring w.
Proof.
  intros Ht E. unfold inFlight, acquiring. split.
  - now apply (count_insert _ _ i t t').
  - apply (count_insert _ _ i t t' Ht). now rewrite E.
Qed.

Lemma counts_suspend w t :
  count pipelineTask (tasks w ++ [t])
  = inFlight w + (if pipelineTask t then 1 else 0) /\
  count (fun t => negb (pipelineTask t)) (tasks w ++ [t])
  = acquiring w + (if pipelineTask t then 0 else 1).
Proof.
  unfold inFlight, acquiring. rewrite !count_app, !count_cons.
  change (count _ []) with 0. destruct (pipelineTask t); simpl; lia.
Qed.

Lemma without_single n : without n [n] = [].
Proof. unfold without. simpl. now rewrite Nat.eqb_refl. Qed.

(** [stopRecording] on a session that records. *)
Lemma oneSession_stopRecording w :
  state w = recording -> oneSession w -> oneSession (stopRecording w).
Proof.
  unfold oneSession. intros Hs. rewrite Hs.
  intros [[r [Hr Hc]] [Hf Ha]]. unfold stopRecording. rewrite Hr.
  destruct (counts_suspend w (StopAwaitingRecorder r)) as [Cf Ca].
  unfold inFlight, acquiring. fields. rewrite Hc, without_single, Cf, Ca.
  cbn. repeat split; lia.
Qed.

(** An attempt leaving through [finally] from a session that processes. *)
Lemma oneSession_settled w i t (w1 : World) :
  tasks w !! i = Some t -> pipelineTask t = true -> oneSession w ->
  mediaRecorder w1 = mediaRecorder w -> capturing w1 = capturing w ->
  oneSession (set_tasks (delete i (tasks w)) (finally_ w1)).
Proof.
  intros Ht Hp Ho Hm Hc.
  destruct (counts_delete w i t Ht) as [Cf Ca]. rewrite Hp in Cf, Ca.
  unfold oneSession, inFlight, acquiring in *. fields. rewrite Hm, Hc.
  destruct (state w); intuition lia.
Qed.

(** An attempt moving on to its next [await]. *)
Lemma oneSession_advanced w i t next request (w1 : World) :
  tasks w !! i = Some t -> pipelineTask t = true -> pipelineTask next = true ->
  oneSession w ->
  state w1 = state w -> mediaRecorder w1 = mediaRecorder w ->
  capturing w1 = capturing w -> tasks w1 = tasks w ->
  oneSession (advance i next (Ok request) w1).
Proof.
  intros Ht Hp Hn Ho Hs Hm Hc Hts.
  destruct (counts_insert w i t next Ht) as [Cf Ca]; [congruence|].
  unfold oneSession in *. unfold inFlight, acquiring in Cf, Ca.
  unfold inFlight, acquiring. fields. rewrite Hs, Hm, Hc, Hts, Cf, Ca. exact Ho.
Qed.

(** Every event keeps the session in shape, a toggle provided that no
    start is waiting for the microphone when it is called. *)
Lemma oneSession_step e w w' :
  oneSession w ->
  (e = CallToggleRecording -> acquiring w = 0) ->
  step e w = Some w' ->
  oneSession w'.
Proof.
  intros Ho Hcalm.
  destruct e as [| |i granted|recorderId data|i|i fetched|i fetched|s|view];
    simpl; intros Hs.
  - (* toggleRecording *)
    injection Hs as <-. specialize (Hcalm eq_refl).
    unfold toggleRecording. destruct (state w) eqn:S.
    + unfold startRecording. destruct (hasGetUserMedia w); simpl negb; cbv iota.
      * destruct (counts_suspend w StartAwaitingUserMedia) as [Cf Ca].
        unfold oneSession, inFlight, acquiring in *. fields.
        rewrite S in *. rewrite Cf, Ca. cbn. intuition lia.
      * unfold oneSession in *. fields. now rewrite S in *.
    + now apply oneSession_stopRecording.
    + unfold oneSession in *. fields. now rewrite S in *.
  - (* stopIfRecording *)
    injection Hs as <-. unfold stopIfRecording. destruct (state w) eqn:S;
      [exact Ho | now apply oneSession_stopRecording | exact Ho].
  - (* getUserMedia settled *)
    destruct (tasks w !! i) as [[]|] eqn:Ht; try discriminate.
    destruct (counts_delete w i _ Ht) as [Cf Ca]. cbn in Cf, Ca.
    unfold oneSession in Ho.
    destruct (state w) eqn:S; [| lia | lia].
    destruct Ho as [Hm [Hc [Hf Ha]]].
    destruct granted as [media | err]; injection Hs as <-.
    + unfold startRecording_resume, oneSession, inFlight, acquiring. fields.
      rewrite Hc. cbn [app]. split; [eauto|]. lia.
    + unfold oneSession, inFlight, acquiring. fields. rewrite S.
      repeat split; try assumption; lia.
  - (* dataavailable *)
    destruct (delivering recorderId w); [|discriminate]. injection Hs as <-.
    unfold onDataAvailable. destruct (0 <? size data); exact Ho.
  - (* the recorder has stopped *)
    destruct (tasks w !! i) as [[]|] eqn:Ht; try discriminate.
    injection Hs as <-. unfold stopRecording_stopped.
    destruct (transcribeAudio_request _ _) as [request | err].
    + now apply (oneSession_advanced w i (StopAwaitingRecorder recorder)).
    + now apply (oneSession_settled w i (StopAwaitingRecorder recorder)).
  - (* the transcription has settled *)
    destruct (tasks w !! i) as [[]|] eqn:Ht; try discriminate.
    injection Hs as <-. unfold stopRecording_transcribed.
    destruct (bind _ _) as [request | err].
    + now apply (oneSession_advanced w i TranscribeAwaitingFetch).
    + now apply (oneSession_settled w i TranscribeAwaitingFetch).
  - (* the completion has settled *)
    destruct (tasks w !! i) as [[]|] eqn:Ht; try discriminate.
    injection Hs as <-. unfold stopRecording_composed.
    destruct (generateNote_result fetched) as [note | err]; cbn [bind].
    + unfold insertNote. destruct (activeView w).
      * now apply (oneSession_settled w i GenerateAwaitingFetch).
      * now apply (oneSession_settled w i GenerateAwaitingFetch).
    + now apply (oneSession_settled w i GenerateAwaitingFetch).
  - injection Hs as <-. exact Ho.
  - injection Hs as <-. exact Ho.
Qed.

Lemma oneSession_loaded s gum view : oneSession (loaded s gum view).
Proof. unfold oneSession, inFlight, acquiring. cbn. repeat split; lia. Qed.

(** Along every schedule that never calls [toggleRecording] while a start
    is waiting for the microphone, the session keeps its shape: the state
    is recording exactly when a recorder is held, at most one recorder
    captures, and at most one attempt is in flight. *)
Lemma one_session_when_starts_do_not_overlap es : forall w w',
  oneSession w -> startsOneAtATime es w = true -> run es w = Some w' ->
  oneSession w' /\
  (state w' = recording <-> mediaRecorder w' <> None) /\
  length (capturing w') <= 1 /\ inFlight w' <= 1.
Proof.
  induction es as [|e es IH]; intros w w' Ho Hc Hr; simpl in *.
  - injection Hr as <-. split; [exact Ho|].
    unfold oneSession in Ho. destruct (state w).
    + destruct Ho as [-> [-> [-> _]]]. cbn. intuition (discriminate || lia).
    + destruct Ho as [[r [-> ->]] [-> _]]. cbn. intuition (discriminate || lia).
    + destruct Ho as [-> [-> [-> _]]]. cbn. intuition (discriminate || lia).
  - apply andb_true_iff in Hc as [Hcalm Hrest].
    destruct (step e w) as [w1|] eqn:Hs; [|discriminate].
    apply (IH w1 w'); [|exact Hrest|exact Hr].
    apply (oneSession_step e w w1 Ho); [|exact Hs].
    intros ->. now apply Nat.eqb_eq.
Qed.

(** A toggle while processing starts nothing: the notice is shown and the
    world is otherwise as it was. *)
Lemma toggle_while_processing w :
  state w = processing ->
  step CallToggleRecording w
  = Some (Notice "Already processing the previous recording." w) /\
  state (toggleRecording w) = processing /\
  tasks (toggleRecording w) = tasks w /\
  inFlight (toggleRecording w) = inFlight w /\
  requests (toggleRecording w) = requests w.
Proof.
  intros Hs. unfold step, toggleRecording. rewrite Hs. repeat split.
  exact Hs.
Qed.

(** C3, at its failing schedule.  Two toggles arrive while the first is
    still waiting for the microphone; the first start resolves, a third
    toggle stops that recording (attempt one is in flight, state
    processing); then the second start resolves and sets the state back to
    recording, so a fourth toggle is not refused and starts attempt two.
    Two attempts are in flight, and no "Already processing" notice was
    ever shown. *)
Lemma overlapping_starts_two_attempts :
  let media := {| opusSupported := true; nativeMimeType := "" |} in
  option_map (fun w => (inFlight w, tasks w, state w, notices w))
    (run [CallToggleRecording; CallToggleRecording;
          UserMediaSettled 0 (Ok media);
          CallToggleRecording;
          UserMediaSettled 0 (Ok media);
          CallToggleRecording]
       (loaded DEFAULT_SETTINGS true None))
  = Some (2,
          [StopAwaitingRecorder {| rid := 0; mimeType := "audio/webm;codecs=opus" |};
           StopAwaitingRecorder {| rid := 1; mimeType := "audio/webm;codecs=opus" |}],
          processing,
          ["Recording started."; "Recording started."]).
Proof. vm_compute. reflexivity. Qed.

(** C8, at its failing schedules.  Two toggles arrive while the first is
    still waiting for the microphone.  When both starts have resolved two
    recorders capture at once, and the service holds only the second: no
    later call can stop the first or its stream.  And when a stop falls
    between the two resolutions, the attempt it starts ends with the state
    idle while the recorder of the second start is still held and
    capturing. *)
Lemma overlapping_starts_break_the_session :
  let media := {| opusSupported := true; nativeMimeType := "" |} in
  option_map (fun w => (state w, mediaRecorder w, capturing w, liveStreams w, tasks w))
    (run [CallToggleRecording; CallToggleRecording;
          UserMediaSettled 0 (Ok media); UserMediaSettled 0 (Ok media)]
       (loaded DEFAULT_SETTINGS true None))
  = Some (recording,
          Some {| rid := 1; mimeType := "audio/webm;codecs=opus" |},
          [0; 1], [0; 1], []) /\
  option_map (fun w => (state w, mediaRecorder w, capturing w, tasks w, notices w))
    (run [CallToggleRecording; CallToggleRecording;
          UserMediaSettled 0 (Ok media);
          CallToggleRecording;
          UserMediaSettled 0 (Ok media);
          RecorderStopped 0]
       (loaded DEFAULT_SETTINGS true None))
  = Some (idle,
          Some {| rid := 1; mimeType := "audio/webm;codecs=opus" |},
          [1], [],
          ["Recording started."; "Recording started.";
           "Add your OpenAI API key in settings."]).
Proof. split; vm_compute; reflexivity. Qed.

(** * Further properties of the service and of its callers *)

(** ** Missing configuration *)

(** X2.  When the recorder has stopped and the credential or the
    transcription model is empty, nothing is uploaded: the attempt ends
    there with the notice of the first missing item (the credential is
    looked at first), the buffer is dropped, the state is idle and the
    recorder's stream is no longer live. *)
Theorem missing_configuration_stops_before_upload
    (w : World) (i : nat) (recorder : MediaRecorder) :
  tasks w !! i = Some (StopAwaitingRecorder recorder) ->
  apiKey (settings w) = "" \/ transcriptionModel (settings w) = "" ->
  exists w',
    step (RecorderStopped i) w = Some w' /\
    requests w' = requests w /\
    notices w' = notices w ++
      [if String.eqb (apiKey (settings w)) ""
       then "Add your OpenAI API key in settings."
       else "Set a transcription model in settings."] /\
    state w' = idle /\ chunks w' = [] /\
    tasks w' = delete i (tasks w) /\
    existsb (Nat.eqb (rid recorder)) (liveStreams w') = false.
Proof.
  intros Ht Hmiss. eexists. split; [simpl; rewrite Ht; reflexivity|].
  unfold stopRecording_stopped, transcribeAudio_request, truthy. fields.
  assert (Hlive : existsb (Nat.eqb (rid recorder))
                    (without (rid recorder) (liveStreams w)) = false).
  { unfold without. induction (liveStreams w) as [|n l IH]; simpl; [reflexivity|].
    destruct (Nat.eqb n (rid recorder)) eqn:E; simpl; [exact IH|].
    rewrite IH, Nat.eqb_sym, E. reflexivity. }
  destruct (String.eqb (apiKey (settings w)) "") eqn:Ek; simpl.
  - repeat split. exact Hlive.
  - destruct Hmiss as [Hk | Hm].
    + apply String.eqb_neq in Ek. contradiction.
    + rewrite Hm. simpl. repeat split. exact Hlive.
Qed.

(** An instance: the default settings have no credential. *)
Lemma missing_configuration_stops_before_upload_witness :
  let r := {| rid := 0; mimeType := "audio/webm" |} in
  let w := set_tasks [StopAwaitingRecorder r]
             (setState processing (loaded DEFAULT_SETTINGS true None)) in
  exists w',
    step (RecorderStopped 0) w = Some w' /\
    requests w' = [] /\
    notices w' = ["Add your OpenAI API key in settings."].
Proof.
  intros r w.
  destruct (missing_configuration_stops_before_upload w 0 r eq_refl)
    as [w' [E [R [N _]]]]; [now left|].
  exists w'. repeat split; assumption.
Defined.

Lemma run_app es1 es2 : forall w,
  run (es1 ++ es2) w
  = match run es1 w with
    | Some w1 => run es2 w1
    | None => None
    end.
Proof.
  induction es1 as [|e es1 IH]; intros w; simpl; [reflexivity|].
  destruct (step e w); [apply IH | reflexivity].
Qed.

(** The first two events of a cycle whose Stage A has what it needs: the
    toggle parks the call, the stop event releases the stream and uploads
    the buffer. *)
Lemma cycle_reaches_upload w recorder :
  state w = recording -> mediaRecorder w = Some recorder ->
  apiKey (settings w) <> "" -> transcriptionModel (settings w) <> "" ->
  exists w2 file,
    run [CallToggleRecording; RecorderStopped (length (tasks w))] w = Some w2 /\
    tasks w2 = tasks w ++ [TranscribeAwaitingFetch] /\
    requests w2 = requests w ++
      [TranscriptionRequest ("Bearer " +:+ apiKey (settings w)) file
         (transcriptionModel (settings w)) "json"] /\
    fileSize file = foldr (fun b n => size b + n) 0 (chunks w) /\
    settings w2 = settings w /\ activeView w2 = activeView w /\
    notices w2 = notices w /\ chunks w2 = chunks w /\
    state w2 = processing /\ mediaRecorder w2 = None /\
    stateChanges w2 = stateChanges w ++ [processing].
Proof.
  intros Hs Hr Hk Hm. apply truthy_true in Hk, Hm.
  eexists. eexists. split.
  - cbn [run step]. unfold toggleRecording, stopRecording. rewrite Hs, Hr.
    fields. rewrite snoc_lookup. reflexivity.
  - unfold stopRecording_stopped, transcribeAudio_request. fields.
    rewrite Hk, Hm. cbn [negb]. fields. rewrite snoc_insert.
    repeat split.
Qed.

(** X3.  The note model is looked at only when Stage B starts.  With a
    credential and a transcription model but no note model, a cycle
    uploads the recording and waits for the transcription; only when that
    has arrived does the attempt end, with the notice "Set a note creation
    model in settings.", the transcript dropped and the document
    untouched. *)
Theorem missing_note_model_found_after_transcription
    (w : World) (recorder : MediaRecorder)
    (fetchedA : Result (Response TranscriptionData)) (transcript : string) :
  state w = recording -> mediaRecorder w = Some recorder ->
  apiKey (settings w) <> "" -> transcriptionModel (settings w) <> "" ->
  noteModel (settings w) = "" ->
  transcribeAudio_result fetchedA = Ok transcript ->
  exists w' file,
    run [CallToggleRecording; RecorderStopped (length (tasks w));
         TranscriptionSettled (length (tasks w)) fetchedA] w = Some w' /\
    requests w' = requests w ++
      [TranscriptionRequest ("Bearer " +:+ apiKey (settings w)) file
         (transcriptionModel (settings w)) "json"] /\
    notices w' = notices w ++ ["Set a note creation model in settings."] /\
    activeView w' = activeView w /\
    state w' = idle /\ chunks w' = [] /\ tasks w' = tasks w.
Proof.
  intros Hs Hr Hk Hm Hn Ha.
  destruct (cycle_reaches_upload w recorder Hs Hr Hk Hm)
    as [w2 [file [E2 [T2 [R2 [_ [S2 [V2 [N2 _]]]]]]]]].
  eexists. exists file. split.
  - change [CallToggleRecording; RecorderStopped (length (tasks w));
            TranscriptionSettled (length (tasks w)) fetchedA]
      with ([CallToggleRecording; RecorderStopped (length (tasks w))]
            ++ [TranscriptionSettled (length (tasks w)) fetchedA]).
    rewrite run_app, E2. cbn [run step]. rewrite T2, snoc_lookup. reflexivity.
  - unfold stopRecording_transcribed. rewrite Ha. cbn [bind].
    unfold generateNote_request, truthy. rewrite S2, Hn.
    apply truthy_true in Hk. unfold truthy in Hk. rewrite Hk. cbn.
    rewrite T2, snoc_delete, R2, N2, V2. repeat split.
Qed.

(** An instance: the note model cleared, the transcription "buy milk". *)
Lemma missing_note_model_found_after_transcription_witness :
  let r := {| rid := 0; mimeType := "audio/webm" |} in
  let w := set_capturing [0]
             (set_mediaRecorder (Some r)
                (setState recording
                   (loaded {| apiKey := "sk-test"; transcriptionModel := "whisper-1";
                              noteModel := ""; notePrompt := "Summarise." |}
                      true None))) in
  exists w',
    run [CallToggleRecording; RecorderStopped 0;
         TranscriptionSettled 0 (transcribed "buy milk")] w = Some w' /\
    length (requests w') = 1 /\
    notices w' = ["Set a note creation model in settings."].
Proof.
  intros r w.
  destruct (missing_note_model_found_after_transcription w r
              (transcribed "buy milk") "buy milk" eq_refl eq_refl)
    as [w' [file [E [R [N _]]]]];
    [discriminate | discriminate | reflexivity | reflexivity |].
  exists w'. split; [exact E|]. split; [now rewrite R | exact N].
Defined.

(** ** The uploaded file *)

Lemma printable_lowerUnit c : printable (lowerUnit c) = printable c.
Proof. destruct c as [[] [] [] [] [] [] [] []]; reflexivity. Qed.

Lemma lowerUnit_idem c : lowerUnit (lowerUnit c) = lowerUnit c.
Proof. destruct c as [[] [] [] [] [] [] [] []]; reflexivity. Qed.

Lemma allPrintable_toLowerCase s : allPrintable (toLowerCase s) = allPrintable s.
Proof.
  induction s as [|c s IH]; simpl; [reflexivity|].
  now rewrite printable_lowerUnit, IH.
Qed.

Lemma toLowerCase_idem s : toLowerCase (toLowerCase s) = toLowerCase s.
Proof.
  induction s as [|c s IH]; simpl; [reflexivity|].
  now rewrite lowerUnit_idem, IH.
Qed.

(** A content type that a [Blob] has stored is stored unchanged again. *)
Lemma normalizeType_idem t : normalizeType (normalizeType t) = normalizeType t.
Proof.
  unfold normalizeType. destruct (allPrintable t) eqn:P; [|reflexivity].
  now rewrite allPrintable_toLowerCase, P, toLowerCase_idem.
Qed.

Lemma upload_file_type mime :
  let blobType := normalizeType (orElse mime "audio/webm") in
  let fileType := normalizeType (orElse blobType "audio/webm") in
  fileType <> "" /\
  includes "ogg" blobType = includes "ogg" fileType /\
  (normalizeType mime = "" -> fileType = "audio/webm") /\
  (normalizeType mime <> "" -> fileType = normalizeType mime).
Proof.
  unfold orElse, truthy.
  destruct (String.eqb mime "") eqn:Em; cbn [negb].
  - apply String.eqb_eq in Em. subst mime.
    split; [|split; [|split]]; vm_compute; congruence.
  - destruct (String.eqb (normalizeType mime) "") eqn:Et; cbn [negb].
    + apply String.eqb_eq in Et. rewrite Et.
      split; [|split; [|split]]; vm_compute; congruence.
    + rewrite normalizeType_idem. apply String.eqb_neq in Et.
      repeat split; congruence.
Qed.

(** X4.  What Stage A uploads: a file as large as the buffered chunks
    together, whose content type is never empty (the recorder's type as a
    [Blob] stores it, "audio/webm" when that is empty), and which is named
    "recording.ogg" exactly when its type contains "ogg", "recording.webm"
    otherwise. *)
Theorem upload_named_by_type (w : World) (i : nat) (recorder : MediaRecorder) :
  tasks w !! i = Some (StopAwaitingRecorder recorder) ->
  apiKey (settings w) <> "" -> transcriptionModel (settings w) <> "" ->
  exists w' file,
    step (RecorderStopped i) w = Some w' /\
    requests w' = requests w ++
      [TranscriptionRequest ("Bearer " +:+ apiKey (settings w)) file
         (transcriptionModel (settings w)) "json"] /\
    fileSize file = foldr (fun b n => size b + n) 0 (chunks w) /\
    fileType file <> "" /\
    fileName file = (if includes "ogg" (fileType file)
                     then "recording.ogg" else "recording.webm") /\
    (normalizeType (mimeType recorder) = "" -> fileType file = "audio/webm") /\
    (normalizeType (mimeType recorder) <> "" ->
       fileType file = normalizeType (mimeType recorder)).
Proof.
  intros Ht Hk Hm. apply truthy_true in Hk, Hm.
  destruct (upload_file_type (mimeType recorder)) as [F1 [F2 [F3 F4]]].
  eexists. eexists. split; [simpl; rewrite Ht; reflexivity|].
  unfold stopRecording_stopped, transcribeAudio_request. fields.
  rewrite Hk, Hm. cbn [negb advance]. fields. cbn [type size newBlob].
  split; [reflexivity|]. cbn [fileSize fileType fileName].
  rewrite F2. repeat split; assumption.
Qed.

(** An instance: a recorder that reports "audio/ogg; codecs=opus". *)
Lemma upload_named_by_type_witness :
  let r := {| rid := 0; mimeType := "audio/ogg; codecs=opus" |} in
  let w := set_chunks [ {| size := 3; type := "" |}; {| size := 4; type := "" |} ]
             (set_tasks [StopAwaitingRecorder r]
                (setState processing
                   (loaded {| apiKey := "sk-test"; transcriptionModel := "whisper-1";
                              noteModel := "gpt-4o-mini"; notePrompt := "" |}
                      true None))) in
  exists w' file,
    step (RecorderStopped 0) w = Some w' /\
    requests w' = [TranscriptionRequest "Bearer sk-test" file "whisper-1" "json"] /\
    fileSize file = 7 /\ fileName file = "recording.ogg".
Proof.
  intros r w.
  destruct (upload_named_by_type w 0 r eq_refl)
    as [w' [file [E [R [S [_ [N [_ T]]]]]]]]; [discriminate | discriminate |].
  exists w', file. repeat split; try assumption.
  rewrite N, T; [reflexivity | discriminate].
Defined.

(** ** The chunk buffer *)

(** X5.  While a recorder delivers, its [dataavailable] events fill the
    buffer in the order they arrive, the empty ones left out, and touch
    nothing else. *)
Theorem chunks_buffered_in_order (recorderId : nat) (datas : list Blob) :
  forall w,
    delivering recorderId w = true ->
    exists w',
      run (map (DataAvailable recorderId) datas) w = Some w' /\
      chunks w' = chunks w ++ List.filter nonEmpty datas /\
      w' = set_chunks (chunks w') w.
Proof.
  induction datas as [|d datas IH]; intros w Hd.
  - exists w. cbn. rewrite app_nil_r. split; [reflexivity|]. split; [reflexivity|].
    now destruct w.
  - cbn [map run step]. rewrite Hd.
    destruct (IH (onDataAvailable d w)) as [w' [E [C W]]].
    { unfold onDataAvailable. now destruct (0 <? size d). }
    exists w'. split; [exact E|]. rewrite W. clear W E. fields. rewrite C.
    unfold onDataAvailable, nonEmpty. cbn [List.filter].
    destruct (0 <? size d); fields.
    + rewrite <- app_assoc. split; reflexivity.
    + split; [reflexivity|]. now destruct w.
Qed.

(** An instance: three events, the second one empty. *)
Lemma chunks_buffered_in_order_witness :
  let w := set_capturing [0]
             (set_mediaRecorder (Some {| rid := 0; mimeType := "audio/webm" |})
                (setState recording (loaded DEFAULT_SETTINGS true None))) in
  exists w',
    run (map (DataAvailable 0)
           [ {| size := 5; type := "a" |}; {| size := 0; type := "b" |};
             {| size := 2; type := "c" |} ]) w = Some w' /\
    chunks w' = [ {| size := 5; type := "a" |}; {| size := 2; type := "c" |} ].
Proof.
  intros w.
  destruct (chunks_buffered_in_order 0
              [ {| size := 5; type := "a" |}; {| size := 0; type := "b" |};
                {| size := 2; type := "c" |} ] w eq_refl) as [w' [E [C _]]].
  exists w'. split; [exact E | exact C].
Defined.

(** ** The microphone *)

Lemma stoppingRids_app ts us :
  stoppingRids (ts ++ us) = stoppingRids ts ++ stoppingRids us.
Proof.
  induction ts as [|[] ts IH]; simpl; try exact IH; [reflexivity|].
  now rewrite IH.
Qed.

Lemma stoppingRids_none ts :
  count pipelineTask ts = 0 -> stoppingRids ts = [].
Proof.
  induction ts as [|t ts IH]; [reflexivity|].
  rewrite count_cons. destruct t; simpl; intros H; try discriminate.
  now apply IH.
Qed.

(** With one attempt in flight, parked as task [i], that task alone says
    which recorder is stopping. *)
Lemma stoppingRids_single ts : forall i t,
  ts !! i = Some t -> pipelineTask t = true -> count pipelineTask ts = 1 ->
  stoppingRids ts = stoppingRids [t] /\
  stoppingRids (delete i ts) = [] /\
  forall t', stoppingRids (<[i := t']> ts) = stoppingRids [t'].
Proof.
  induction ts as [|u ts IH]; intros [|i] t Ht Hp Hc; simpl in Ht; try discriminate.
  - injection Ht as ->. rewrite count_cons, Hp in Hc.
    assert (Hn : stoppingRids ts = []) by (apply stoppingRids_none; lia).
    cbn [delete list_delete insert list_insert].
    change (t :: ts) with ([t] ++ ts).
    rewrite stoppingRids_app, Hn, app_nil_r. repeat split; try reflexivity.
    intros t'. change (t' :: ts) with ([t'] ++ ts).
    now rewrite stoppingRids_app, Hn, app_nil_r.
  - rewrite count_cons in Hc.
    destruct (pipelineTask u) eqn:Hu.
    + exfalso. pose proof (count_delete pipelineTask ts i t Ht) as Hd.
      rewrite Hp in Hd. lia.
    + destruct u; try discriminate.
      destruct (IH i t Ht Hp) as [A [B C]]; [lia|].
      cbn [delete list_delete insert list_insert stoppingRids].
      repeat split; assumption.
Qed.

(** On a session in shape, a stream is live exactly while its recorder
    captures or is stopping; every event keeps it so. *)
Lemma streams_follow_recorders_step e w w' :
  oneSession w ->
  liveStreams w = capturing w ++ stoppingRids (tasks w) ->
  (e = CallToggleRecording -> acquiring w = 0) ->
  step e w = Some w' ->
  liveStreams w' = capturing w' ++ stoppingRids (tasks w').
Proof.
  intros Ho Hl Hcalm.
  assert (Hstop : state w = recording ->
            liveStreams (stopRecording w)
            = capturing (stopRecording w) ++ stoppingRids (tasks (stopRecording w))).
  { intros S. unfold oneSession in Ho. rewrite S in Ho.
    destruct Ho as [[r [Hr Hc]] [Hf _]].
    unfold stopRecording. rewrite Hr. fields.
    rewrite Hl, Hc, without_single, stoppingRids_app.
    now rewrite (stoppingRids_none _ Hf). }
  destruct e as [| |i granted|recorderId data|i|i fetched|i fetched|s|view];
    simpl; intros Hs.
  - injection Hs as <-. unfold toggleRecording. destruct (state w) eqn:S.
    + unfold startRecording. destruct (hasGetUserMedia w); cbn [negb]; fields.
      * now rewrite stoppingRids_app, app_nil_r.
      * exact Hl.
    + now apply Hstop.
    + exact Hl.
  - injection Hs as <-. unfold stopIfRecording. destruct (state w) eqn:S;
      [exact Hl | now apply Hstop | exact Hl].
  - destruct (tasks w !! i) as [[]|] eqn:Ht; try discriminate.
    destruct (counts_delete w i _ Ht) as [Cf Ca]. cbn in Cf, Ca.
    unfold oneSession in Ho.
    destruct (state w) eqn:S; [| lia | lia].
    destruct Ho as [_ [Hc [Hf _]]].
    assert (Hn : stoppingRids (delete i (tasks w)) = [])
      by (apply stoppingRids_none; lia).
    rewrite Hc, (stoppingRids_none _ Hf) in Hl.
    destruct granted; injection Hs as <-;
      unfold startRecording_resume; fields; now rewrite Hl, Hn, ?Hc.
  - destruct (delivering recorderId w); [|discriminate]. injection Hs as <-.
    unfold onDataAvailable. destruct (0 <? size data); exact Hl.
  - destruct (tasks w !! i) as [[]|] eqn:Ht; try discriminate.
    injection Hs as <-.
    unfold oneSession in Ho. pose proof (counts_delete w i _ Ht) as [Cf _].
    cbn in Cf. destruct (state w); [lia | lia |].
    destruct Ho as [_ [Hc [Hf _]]].
    destruct (stoppingRids_single (tasks w) i _ Ht eq_refl Hf) as [A [B C]].
    unfold stopRecording_stopped.
    destruct (transcribeAudio_request _ _); fields;
      rewrite Hl, Hc, A, ?B, ?C; cbn [stoppingRids app]; apply without_single.
  - destruct (tasks w !! i) as [[]|] eqn:Ht; try discriminate.
    injection Hs as <-.
    unfold oneSession in Ho. pose proof (counts_delete w i _ Ht) as [Cf _].
    cbn in Cf. destruct (state w); [lia | lia |].
    destruct Ho as [_ [Hc [Hf _]]].
    destruct (stoppingRids_single (tasks w) i _ Ht eq_refl Hf) as [A [B C]].
    unfold stopRecording_transcribed.
    destruct (bind _ _); fields; now rewrite Hl, Hc, A, ?B, ?C.
  - destruct (tasks w !! i) as [[]|] eqn:Ht; try discriminate.
    injection Hs as <-.
    unfold oneSession in Ho. pose proof (counts_delete w i _ Ht) as [Cf _].
    cbn in Cf. destruct (state w); [lia | lia |].
    destruct Ho as [_ [Hc [Hf _]]].
    destruct (stoppingRids_single (tasks w) i _ Ht eq_refl Hf) as [A [B C]].
    unfold stopRecording_composed.
    destruct (generateNote_result fetched); cbn [bind];
      [unfold insertNote; destruct (activeView w)|]; fields;
      now rewrite Hl, Hc, A, B.
  - injection Hs as <-. exact Hl.
  - injection Hs as <-. exact Hl.
Qed.

(** X6.  Along every schedule from the loaded plugin that never calls
    [toggleRecording] while a start is waiting for the microphone, the
    live streams are those of the recorders that capture or are stopping:
    in state idle no stream is live, whether the last attempt succeeded or
    failed; in state recording only the held recorder's stream is; and in
    state processing the stream is live only until the recorder's stop
    event. *)
Theorem microphone_released_when_idle
    (s : VoiceNoteSettings) (gum : bool) (view : option Editor)
    (es : list Event) (w' : World) :
  startsOneAtATime es (loaded s gum view) = true ->
  run es (loaded s gum view) = Some w' ->
  liveStreams w' = capturing w' ++ stoppingRids (tasks w') /\
  (state w' = idle -> liveStreams w' = []) /\
  (state w' = recording ->
     exists r, mediaRecorder w' = Some r /\ liveStreams w' = [rid r]) /\
  (state w' = processing -> liveStreams w' = stoppingRids (tasks w')).
Proof.
  assert (G : forall es w w',
            oneSession w ->
            liveStreams w = capturing w ++ stoppingRids (tasks w) ->
            startsOneAtATime es w = true -> run es w = Some w' ->
            oneSession w' /\
            liveStreams w' = capturing w' ++ stoppingRids (tasks w')).
  { clear. induction es as [|e es IH]; intros w w' Ho Hl Hc Hr; simpl in *.
    - injection Hr as <-. now split.
    - apply andb_true_iff in Hc as [Hcalm Hrest].
      destruct (step e w) as [w1|] eqn:Hs; [|discriminate].
      assert (Hq : e = CallToggleRecording -> acquiring w = 0)
        by (intros ->; now apply Nat.eqb_eq).
      apply (IH w1 w'); try assumption.
      + now apply (oneSession_step e w).
      + now apply (streams_follow_recorders_step e w). }
  intros Hc Hr.
  destruct (G es _ w' (oneSession_loaded s gum view) eq_refl Hc Hr) as [Ho Hl].
  split; [exact Hl|]. unfold oneSession in Ho.
  repeat split; intros S; rewrite S in Ho.
  - destruct Ho as [_ [Hcap [Hf _]]].
    now rewrite Hl, Hcap, (stoppingRids_none _ Hf).
  - destruct Ho as [[r [Hr' Hcap]] [Hf _]]. exists r. split; [exact Hr'|].
    now rewrite Hl, Hcap, (stoppingRids_none _ Hf).
  - destruct Ho as [_ [Hcap _]]. now rewrite Hl, Hcap.
Qed.

(** An instance: a cycle that fails for want of a credential. *)
Lemma microphone_released_when_idle_witness :
  exists w',
    run [CallToggleRecording;
         UserMediaSettled 0 (Ok {| opusSupported := false; nativeMimeType := "audio/ogg" |});
         CallToggleRecording; RecorderStopped 0]
      (loaded DEFAULT_SETTINGS true None) = Some w' /\
    state w' = idle /\ liveStreams w' = [].
Proof.
  destruct (run [CallToggleRecording;
                 UserMediaSettled 0
                   (Ok {| opusSupported := false; nativeMimeType := "audio/ogg" |});
                 CallToggleRecording; RecorderStopped 0]
              (loaded DEFAULT_SETTINGS true None)) as [w'|] eqn:E;
    [|vm_compute in E; discriminate].
  exists w'. split; [reflexivity|].
  assert (C : startsOneAtATime
                [CallToggleRecording;
                 UserMediaSettled 0
                   (Ok {| opusSupported := false; nativeMimeType := "audio/ogg" |});
                 CallToggleRecording; RecorderStopped 0]
                (loaded DEFAULT_SETTINGS true None) = true)
    by (vm_compute; reflexivity).
  destruct (microphone_released_when_idle _ _ _ _ w' C E) as [_ [I _]].
  assert (S : state w' = idle)
    by (vm_compute in E; injection E as <-; reflexivity).
  split; [exact S | exact (I S)].
Defined.

(** ** What an attempt shows and sends *)

(** X7.  An attempt tells the user once how it ended, and is silent until
    then.  The step that ends an attempt adds exactly one notice, and it is
    the one the source gives: at the stop event or at the settled
    transcription, the text of what the stage threw; at the settled
    completion, "Voice note inserted." when a note was delivered into the
    active editor, "Open a note to insert the transcript." when there is a
    note and no editor, and otherwise the text of what Stage B threw.  A
    stage that resumes and parks again adds no notice. *)
Theorem one_notice_per_attempt (e : Event) (w w' : World) :
  step e w = Some w' ->
  (inFlight w' < inFlight w ->
     exists m,
       notices w' = notices w ++ [m] /\
       match e with
       | RecorderStopped i =>
           exists recorder err,
             tasks w !! i = Some (StopAwaitingRecorder recorder) /\
             transcribeAudio_request (settings w)
               (newBlob (chunks w) (orElse (mimeType recorder) "audio/webm"))
             = Throw err /\
             m = messageOf err
       | TranscriptionSettled i fetched =>
           exists err,
             (do! transcript := transcribeAudio_result fetched in
              generateNote_request (settings w) transcript) = Throw err /\
             m = messageOf err
       | CompletionSettled i fetched =>
           (exists note ed,
              generateNote_result fetched = Ok note /\
              activeView w = Some ed /\ m = "Voice note inserted.") \/
           (exists note,
              generateNote_result fetched = Ok note /\
              activeView w = None /\
              m = "Open a note to insert the transcript.") \/
           (exists err,
              generateNote_result fetched = Throw err /\ m = messageOf err)
       | _ => False
       end) /\
  (inFlight w' = inFlight w ->
     match e with
     | RecorderStopped _ | TranscriptionSettled _ _ | CompletionSettled _ _ =>
         notices w' = notices w
     | _ => True
     end).
Proof.
  assert (A : forall i t next r (v : World),
            tasks v !! i = Some t -> pipelineTask t = true ->
            pipelineTask next = true ->
            let v' := advance i next r v in
            (inFlight v' < inFlight v ->
               exists err, r = Throw err /\
                           notices v' = notices v ++ [messageOf err]) /\
            (inFlight v' = inFlight v -> notices v' = notices v)).
  { intros i t next r v Ht Hp Hn.
    destruct r as [request | err]; cbn [advance].
    - pose proof (count_insert pipelineTask (tasks v) i t next Ht) as Hc.
      unfold inFlight. fields. rewrite Hc by congruence.
      split; [lia | reflexivity].
    - pose proof (count_delete pipelineTask (tasks v) i t Ht) as Hc.
      rewrite Hp in Hc. unfold inFlight. fields.
      split; [intros _; exists err; split; reflexivity | lia]. }
  destruct e as [| |i granted|recorderId data|i|i fetched|i fetched|s|view];
    simpl; intros Hs.
  - injection Hs as <-. pose proof (inFlight_toggleRecording w).
    split; [lia | trivial].
  - injection Hs as <-. pose proof (inFlight_stopIfRecording w).
    split; [lia | trivial].
  - destruct (tasks w !! i) as [[]|] eqn:Ht; try discriminate.
    pose proof (count_delete pipelineTask (tasks w) i _ Ht) as Hc. simpl in Hc.
    split; [|trivial].
    destruct granted; injection Hs as <-; unfold inFlight; fields;
      unfold startRecording_resume; fields; lia.
  - destruct (delivering recorderId w); [|discriminate]. injection Hs as <-.
    split; [|trivial]. unfold onDataAvailable, inFlight.
    destruct (0 <? size data); fields; lia.
  - destruct (tasks w !! i) as [[]|] eqn:Ht; try discriminate.
    injection Hs as <-. unfold stopRecording_stopped.
    match goal with |- context [advance i ?n ?r ?v] =>
      destruct (A i _ n r v Ht eq_refl eq_refl) as [A1 A2] end.
    split; [|exact A2].
    intros Hlt. destruct (A1 Hlt) as [err [Er En]].
    exists (messageOf err). split; [exact En|].
    exists recorder, err. repeat split. exact Er.
  - destruct (tasks w !! i) as [[]|] eqn:Ht; try discriminate.
    injection Hs as <-. unfold stopRecording_transcribed.
    match goal with |- context [advance i ?n ?r ?v] =>
      destruct (A i _ n r v Ht eq_refl eq_refl) as [A1 A2] end.
    split; [|exact A2].
    intros Hlt. destruct (A1 Hlt) as [err [Er En]].
    exists (messageOf err). split; [exact En|].
    exists err. split; [exact Er | reflexivity].
  - destruct (tasks w !! i) as [[]|] eqn:Ht; try discriminate.
    injection Hs as <-. unfold stopRecording_composed.
    pose proof (count_delete pipelineTask (tasks w) i _ Ht) as Hc. simpl in Hc.
    destruct (generateNote_result fetched) as [note | err]; cbn [bind];
      [unfold insertNote; destruct (activeView w) as [ed|]|];
      unfold inFlight; fields; (split; [intros _ | lia]).
    + eexists. split; [reflexivity|]. left. now exists note, ed.
    + eexists. split; [reflexivity|]. right. left. now exists note.
    + eexists. split; [reflexivity|]. right. right. now exists err.
  - injection Hs as <-. split; [unfold inFlight; fields; lia | trivial].
  - injection Hs as <-. split; [unfold inFlight; fields; lia | trivial].
Qed.

(** An instance: a completion call that rejects. *)
Lemma one_notice_per_attempt_witness :
  let w := set_notices ["Recording started."]
             (set_tasks [GenerateAwaitingFetch]
                (setState processing (loaded DEFAULT_SETTINGS true None))) in
  exists w',
    step (CompletionSettled 0 (Throw (ErrorObject "Failed to fetch"))) w = Some w' /\
    notices w' = ["Recording started."; "Failed to fetch"].
Proof.
  intros w.
  destruct (proj1 (one_notice_per_attempt
                     (CompletionSettled 0 (Throw (ErrorObject "Failed to fetch")))
                     w _ eq_refl)) as [m [N K]]; [vm_compute; lia|].
  eexists. split; [reflexivity|].
  destruct K as [[note [ed [G _]]] | [[note [G _]] | [err [G ->]]]];
    try discriminate G.
  injection G as <-. exact N.
Defined.

Lemma count_insert_any (f : Task -> bool) ts : forall i t t',
  ts !! i = Some t ->
  count f (<[i := t']> ts) + (if f t then 1 else 0)
  = count f ts + (if f t' then 1 else 0).
Proof.
  induction ts as [|u ts IH]; intros [|i] t t' H; simpl in *; try discriminate.
  - injection H as ->. rewrite !count_cons. lia.
  - rewrite !count_cons. pose proof (IH i t t' H). lia.
Qed.

Lemma sent_fetch f r w :
  sent f (fetch r w) = sent f w + (if f r then 1 else 0).
Proof.
  unfold sent, fetch. fields. rewrite List.filter_app, length_app. simpl.
  now destruct (f r).
Qed.

Lemma transcribeAudio_request_kind s b r :
  transcribeAudio_request s b = Ok r -> isTranscriptionRequest r = true.
Proof.
  unfold transcribeAudio_request.
  destruct (negb (truthy (apiKey s))); [discriminate|].
  destruct (negb (truthy (transcriptionModel s))); [discriminate|].
  now intros [= <-].
Qed.

Lemma generateNote_request_kind s t r :
  generateNote_request s t = Ok r -> isTranscriptionRequest r = false.
Proof.
  unfold generateNote_request.
  destruct (negb (truthy (apiKey s))); [discriminate|].
  destruct (negb (truthy (noteModel s))); [discriminate|].
  now intros [= <-].
Qed.

(** Every step keeps the composition requests, together with the attempts
    still waiting for their transcription, within the number of
    transcription requests. *)
Lemma composition_follows_transcription_step e w w' :
  step e w = Some w' ->
  sent (fun r => negb (isTranscriptionRequest r)) w
    + count awaitingTranscription (tasks w) <= sent isTranscriptionRequest w ->
  sent (fun r => negb (isTranscriptionRequest r)) w'
    + count awaitingTranscription (tasks w') <= sent isTranscriptionRequest w'.
Proof.
  destruct e as [| |i granted|recorderId data|i|i fetched|i fetched|s|view];
    simpl; intros Hs Hi.
  - injection Hs as <-. unfold toggleRecording, startRecording, stopRecording.
    destruct (state w); [destruct (hasGetUserMedia w) | destruct (mediaRecorder w) |];
      cbn [negb]; unfold sent in *; fields; rewrite ?count_app, ?count_cons;
      cbn; try lia.
  - injection Hs as <-. unfold stopIfRecording, stopRecording.
    destruct (state w); [| destruct (mediaRecorder w) |];
      unfold sent in *; fields; rewrite ?count_app, ?count_cons; cbn; try lia.
  - destruct (tasks w !! i) as [[]|] eqn:Ht; try discriminate.
    pose proof (count_delete awaitingTranscription (tasks w) i _ Ht) as Hc.
    simpl in Hc.
    destruct granted; injection Hs as <-; unfold startRecording_resume;
      unfold sent in *; fields; lia.
  - destruct (delivering recorderId w); [|discriminate]. injection Hs as <-.
    unfold onDataAvailable. destruct (0 <? size data); exact Hi.
  - destruct (tasks w !! i) as [[]|] eqn:Ht; try discriminate.
    injection Hs as <-. unfold stopRecording_stopped.
    destruct (transcribeAudio_request _ _) as [request | err] eqn:E; cbn [advance].
    + apply transcribeAudio_request_kind in E.
      pose proof (count_insert_any awaitingTranscription (tasks w) i _
                    TranscribeAwaitingFetch Ht) as Hc. simpl in Hc.
      fold (fetch request (set_liveStreams
              (without (rid recorder) (liveStreams w)) w)).
      unfold sent in *. fields.
      rewrite !List.filter_app, !length_app. cbn [List.filter]. rewrite E.
      cbn. lia.
    + pose proof (count_delete awaitingTranscription (tasks w) i _ Ht) as Hc.
      simpl in Hc. unfold sent in *. fields. lia.
  - destruct (tasks w !! i) as [[]|] eqn:Ht; try discriminate.
    injection Hs as <-. unfold stopRecording_transcribed.
    destruct (bind _ _) as [request | err] eqn:E; cbn [advance].
    + assert (K : isTranscriptionRequest request = false).
      { destruct (transcribeAudio_result fetched); cbn [bind] in E;
          [|discriminate]. now apply generateNote_request_kind in E. }
      pose proof (count_insert_any awaitingTranscription (tasks w) i _
                    GenerateAwaitingFetch Ht) as Hc. simpl in Hc.
      unfold sent in *. fields.
      rewrite !List.filter_app, !length_app. cbn [List.filter]. rewrite K.
      cbn. lia.
    + pose proof (count_delete awaitingTranscription (tasks w) i _ Ht) as Hc.
      simpl in Hc. unfold sent in *. fields. lia.
  - destruct (tasks w !! i) as [[]|] eqn:Ht; try discriminate.
    injection Hs as <-. unfold stopRecording_composed.
    pose proof (count_delete awaitingTranscription (tasks w) i _ Ht) as Hc.
    simpl in Hc.
    destruct (generateNote_result fetched) as [note | err]; cbn [bind];
      [unfold insertNote; destruct (activeView w)|];
      unfold sent in *; fields; lia.
  - injection Hs as <-. exact Hi.
  - injection Hs as <-. exact Hi.
Qed.

(** X8.  On every schedule from the loaded plugin, overlapping calls
    included, the composition requests sent so far, together with the
    attempts still waiting for their transcription, never outnumber the
    transcription requests: no note is composed for a recording that was
    not uploaded first. *)
Theorem composition_follows_transcription
    (s : VoiceNoteSettings) (gum : bool) (view : option Editor)
    (es : list Event) (w' : World) :
  run es (loaded s gum view) = Some w' ->
  sent (fun r => negb (isTranscriptionRequest r)) w'
    + count awaitingTranscription (tasks w') <= sent isTranscriptionRequest w'.
Proof.
  assert (G : forall es w w',
            run es w = Some w' ->
            sent (fun r => negb (isTranscriptionRequest r)) w
              + count awaitingTranscription (tasks w) <= sent isTranscriptionRequest w ->
            sent (fun r => negb (isTranscriptionRequest r)) w'
              + count awaitingTranscription (tasks w')
            <= sent isTranscriptionRequest w').
  { clear. induction es as [|e es IH]; intros w w' Hr Hi; simpl in Hr.
    - now injection Hr as <-.
    - destruct (step e w) as [w1|] eqn:Hs; [|discriminate].
      apply (IH w1 w' Hr).
      now apply (composition_follows_transcription_step e w). }
  intros Hr. apply (G es _ w' Hr). cbn. lia.
Qed.

(** An instance: a cycle up to its composition request. *)
Lemma composition_follows_transcription_witness :
  exists w',
    run [CallToggleRecording;
         UserMediaSettled 0 (Ok {| opusSupported := true; nativeMimeType := "" |});
         CallToggleRecording; RecorderStopped 0;
         TranscriptionSettled 0 (transcribed "buy milk")]
      (loaded {| apiKey := "sk-test"; transcriptionModel := "whisper-1";
                 noteModel := "gpt-4o-mini"; notePrompt := "Summarise." |}
         true None) = Some w' /\
    sent (fun r => negb (isTranscriptionRequest r)) w' <= sent isTranscriptionRequest w'.
Proof.
  destruct (run [CallToggleRecording;
                 UserMediaSettled 0 (Ok {| opusSupported := true; nativeMimeType := "" |});
                 CallToggleRecording; RecorderStopped 0;
                 TranscriptionSettled 0 (transcribed "buy milk")]
              (loaded {| apiKey := "sk-test"; transcriptionModel := "whisper-1";
                         noteModel := "gpt-4o-mini"; notePrompt := "Summarise." |}
                 true None)) as [w'|] eqn:E;
    [|vm_compute in E; discriminate].
  exists w'. split; [reflexivity|].
  pose proof (composition_follows_transcription _ _ _ _ w' E). lia.
Defined.

(** ** The document *)

(** X9.  The service writes into the document at one place only: if a
    step changes the active view or its editor, either the host changed
    the view, or a completion call has settled with a note and that note,
    followed by a line feed, has replaced the selection of the editor that
    was active, success being reported.  No other event, and no failing
    attempt, touches the text. *)
Theorem document_changed_only_by_delivery (e : Event) (w w' : World) :
  step e w = Some w' ->
  activeView w' <> activeView w ->
  (exists view, e = ActiveViewChanged view) \/
  (exists i fetched note ed,
     e = CompletionSettled i fetched /\
     generateNote_result fetched = Ok note /\
     activeView w = Some ed /\
     activeView w' = Some (replaceSelection (note +:+ LF) ed) /\
     notices w' = notices w ++ ["Voice note inserted."]).
Proof.
  destruct e as [| |i granted|recorderId data|i|i fetched|i fetched|s|view];
    simpl; intros Hs Hne.
  - exfalso. apply Hne. injection Hs as <-.
    unfold toggleRecording, startRecording, stopRecording.
    destruct (state w), (hasGetUserMedia w), (mediaRecorder w); reflexivity.
  - exfalso. apply Hne. injection Hs as <-.
    unfold stopIfRecording, stopRecording.
    destruct (state w), (mediaRecorder w); reflexivity.
  - exfalso. apply Hne.
    destruct (tasks w !! i) as [[]|]; try discriminate.
    destruct granted; injection Hs as <-; reflexivity.
  - exfalso. apply Hne.
    destruct (delivering recorderId w); [|discriminate]. injection Hs as <-.
    unfold onDataAvailable. destruct (0 <? size data); reflexivity.
  - exfalso. apply Hne.
    destruct (tasks w !! i) as [[]|]; try discriminate. injection Hs as <-.
    unfold stopRecording_stopped, advance.
    destruct (transcribeAudio_request _ _); reflexivity.
  - exfalso. apply Hne.
    destruct (tasks w !! i) as [[]|]; try discriminate. injection Hs as <-.
    unfold stopRecording_transcribed, advance. destruct (bind _ _); reflexivity.
  - right.
    destruct (tasks w !! i) as [[]|]; try discriminate. injection Hs as <-.
    unfold stopRecording_composed in *.
    destruct (generateNote_result fetched) as [note | err] eqn:G; cbn [bind] in *.
    + unfold insertNote in *. destruct (activeView w) as [ed|] eqn:V.
      * exists i, fetched, note, ed. repeat split. exact G.
      * exfalso. apply Hne. cbn. exact V.
    + exfalso. apply Hne. reflexivity.
  - exfalso. apply Hne. injection Hs as <-. reflexivity.
  - left. now exists view.
Qed.

(** An instance: the note "Milk" delivered into an empty editor. *)
Lemma document_changed_only_by_delivery_witness :
  let ed := {| before := ""; selection := ""; after := "" |} in
  let w := set_tasks [GenerateAwaitingFetch]
             (setState processing (loaded DEFAULT_SETTINGS true (Some ed))) in
  exists w',
    step (CompletionSettled 0 (composed "Milk")) w = Some w' /\
    notices w' = ["Voice note inserted."].
Proof.
  intros ed w.
  destruct (document_changed_only_by_delivery
              (CompletionSettled 0 (composed "Milk")) w _ eq_refl)
    as [[view E] | [i [fetched [note [ed' [_ [_ [_ [_ N]]]]]]]]];
    [vm_compute; discriminate | discriminate |].
  eexists. split; [reflexivity | exact N].
Defined.

(** ** A whole cycle *)

(** X10.  A cycle in which both calls succeed, run without interruption
    from a recording session with its configuration in place and an editor
    active: the recording is uploaded, the transcript is sent for
    composition under the note prompt, the note and a line feed replace the
    selection, success is the only notice, the state callback has seen
    processing and then idle, and the session is idle again with its buffer
    empty and nothing parked. *)
Theorem successful_cycle
    (w : World) (recorder : MediaRecorder) (ed : Editor)
    (fetchedA : Result (Response TranscriptionData))
    (fetchedB : Result (Response CompletionData))
    (transcript note : string) :
  state w = recording -> mediaRecorder w = Some recorder ->
  apiKey (settings w) <> "" -> transcriptionModel (settings w) <> "" ->
  noteModel (settings w) <> "" ->
  activeView w = Some ed ->
  transcribeAudio_result fetchedA = Ok transcript ->
  generateNote_result fetchedB = Ok note ->
  exists w' file,
    run (cycleEvents (length (tasks w)) fetchedA fetchedB) w = Some w' /\
    requests w' = requests w ++
      [TranscriptionRequest ("Bearer " +:+ apiKey (settings w)) file
         (transcriptionModel (settings w)) "json";
       ChatRequest ("Bearer " +:+ apiKey (settings w))
         (generateNote_body (settings w) transcript)] /\
    fileSize file = foldr (fun b n => size b + n) 0 (chunks w) /\
    activeView w' = Some (replaceSelection (note +:+ LF) ed) /\
    notices w' = notices w ++ ["Voice note inserted."] /\
    stateChanges w' = stateChanges w ++ [processing; idle] /\
    state w' = idle /\ mediaRecorder w' = None /\ chunks w' = [] /\
    tasks w' = tasks w.
Proof.
  intros Hs Hr Hk Hm Hn Hv Ha Hb.
  destruct (cycle_reaches_upload w recorder Hs Hr Hk Hm)
    as [w2 [file [E2 [T2 [R2 [F2 [S2 [V2 [N2 [C2 [St2 [M2 L2]]]]]]]]]]]].
  apply truthy_true in Hk, Hn.
  set (w3 := stopRecording_transcribed (length (tasks w)) fetchedA w2).
  assert (E3 : step (TranscriptionSettled (length (tasks w)) fetchedA) w2 = Some w3)
    by (cbn [step]; now rewrite T2, snoc_lookup).
  assert (X3 : w3 = set_tasks (tasks w ++ [GenerateAwaitingFetch])
                      (fetch (ChatRequest ("Bearer " +:+ apiKey (settings w))
                                (generateNote_body (settings w) transcript)) w2)).
  { unfold w3, stopRecording_transcribed. rewrite Ha. cbn [bind].
    unfold generateNote_request. rewrite S2, Hk, Hn. cbn [negb advance].
    now rewrite T2, snoc_insert. }
  exists (stopRecording_composed (length (tasks w)) fetchedB w3), file. split.
  - unfold cycleEvents, attemptEvents.
    change [CallToggleRecording; RecorderStopped (length (tasks w));
            TranscriptionSettled (length (tasks w)) fetchedA;
            CompletionSettled (length (tasks w)) fetchedB]
      with ([CallToggleRecording; RecorderStopped (length (tasks w))]
            ++ [TranscriptionSettled (length (tasks w)) fetchedA;
                CompletionSettled (length (tasks w)) fetchedB]).
    rewrite run_app, E2. cbn [run]. rewrite E3. cbn [step].
    rewrite X3 at 1. fields. now rewrite snoc_lookup.
  - rewrite (composed_delivered w3 _ fetchedB note ed Hb)
      by (rewrite X3; fields; now rewrite V2).
    rewrite X3. fields.
    rewrite snoc_delete, R2, <- app_assoc, N2, L2, <- app_assoc, M2.
    repeat split. exact F2.
Qed.

(** An instance: "buy milk" becomes the note "Milk". *)
Lemma successful_cycle_witness :
  let r := {| rid := 0; mimeType := "audio/webm" |} in
  let ed := {| before := "a"; selection := "b"; after := "c" |} in
  let w := set_capturing [0]
             (set_mediaRecorder (Some r)
                (setState recording
                   (loaded {| apiKey := "sk-test"; transcriptionModel := "whisper-1";
                              noteModel := "gpt-4o-mini"; notePrompt := "Summarise." |}
                      true (Some ed)))) in
  exists w',
    run (cycleEvents 0 (transcribed " buy milk ") (composed "Milk")) w = Some w' /\
    activeView w' = Some {| before := "aMilk" +:+ LF; selection := ""; after := "c" |} /\
    state w' = idle.
Proof.
  intros r ed w.
  destruct (successful_cycle w r ed (transcribed " buy milk ") (composed "Milk")
              "buy milk" "Milk" eq_refl eq_refl)
    as [w' [file [E [_ [_ [V [_ [_ [S _]]]]]]]]];
    try discriminate; try reflexivity.
  exists w'. repeat split; assumption.
Defined.

(** ** Recording means a recorder is held *)

Lemma recording_holds_recorder_step e w w' :
  step e w = Some w' ->
  (state w = recording -> mediaRecorder w <> None) ->
  state w' = recording -> mediaRecorder w' <> None.
Proof.
  destruct e as [| |i granted|recorderId data|i|i fetched|i fetched|s|view];
    simpl; intros Hs Hi.
  - injection Hs as <-. unfold toggleRecording, startRecording, stopRecording.
    destruct (state w) eqn:S;
      [destruct (hasGetUserMedia w) | destruct (mediaRecorder w) |];
      cbn; first [exact Hi | intros; congruence | exfalso; now apply Hi].
  - injection Hs as <-. unfold stopIfRecording, stopRecording.
    destruct (state w) eqn:S; [| destruct (mediaRecorder w) |];
      cbn; first [exact Hi | intros; congruence | exfalso; now apply Hi].
  - destruct (tasks w !! i) as [[]|]; try discriminate.
    destruct granted; injection Hs as <-; cbn; [discriminate | exact Hi].
  - destruct (delivering recorderId w); [|discriminate]. injection Hs as <-.
    unfold onDataAvailable. destruct (0 <? size data); exact Hi.
  - destruct (tasks w !! i) as [[]|]; try discriminate. injection Hs as <-.
    unfold stopRecording_stopped, advance.
    destruct (transcribeAudio_request _ _); cbn; [exact Hi | discriminate].
  - destruct (tasks w !! i) as [[]|]; try discriminate. injection Hs as <-.
    unfold stopRecording_transcribed, advance.
    destruct (bind _ _); cbn; [exact Hi | discriminate].
  - destruct (tasks w !! i) as [[]|]; try discriminate. injection Hs as <-.
    unfold stopRecording_composed.
    destruct (bind _ _); cbn; discriminate.
  - injection Hs as <-. exact Hi.
  - injection Hs as <-. exact Hi.
Qed.

(** X11.  On every schedule from the loaded plugin, overlapping calls
    included, the state is recording only while a recorder is held: the
    early return of [stopRecording] for a missing recorder is never taken
    from a toggle, which then always stops the recorder, moves to
    processing and begins one attempt. *)
Theorem toggle_while_recording_always_stops
    (s : VoiceNoteSettings) (gum : bool) (view : option Editor)
    (es : list Event) (w' : World) :
  run es (loaded s gum view) = Some w' ->
  state w' = recording ->
  exists recorder,
    mediaRecorder w' = Some recorder /\
    step CallToggleRecording w' = Some (stopRecording w') /\
    state (stopRecording w') = processing /\
    mediaRecorder (stopRecording w') = None /\
    tasks (stopRecording w') = tasks w' ++ [StopAwaitingRecorder recorder] /\
    inFlight (stopRecording w') = S (inFlight w').
Proof.
  assert (G : forall es w w',
            run es w = Some w' ->
            (state w = recording -> mediaRecorder w <> None) ->
            state w' = recording -> mediaRecorder w' <> None).
  { clear. induction es as [|e es IH]; intros w w' Hr Hi; simpl in Hr.
    - now injection Hr as <-.
    - destruct (step e w) as [w1|] eqn:Hs; [|discriminate].
      apply (IH w1 w' Hr). now apply (recording_holds_recorder_step e w). }
  intros Hr Hs.
  pose proof (G es _ w' Hr) as Hm. cbn in Hm. specialize (Hm ltac:(discriminate) Hs).
  destruct (mediaRecorder w') as [recorder|] eqn:M; [|contradiction].
  exists recorder. split; [reflexivity|].
  split; [cbn [step]; unfold toggleRecording; now rewrite Hs|].
  unfold stopRecording. rewrite M. rewrite inFlight_suspend. repeat split.
  unfold inFlight. fields. cbn [pipelineTask]. lia.
Qed.

(** An instance: after a granted start. *)
Lemma toggle_while_recording_always_stops_witness :
  exists w' recorder,
    run [CallToggleRecording;
         UserMediaSettled 0 (Ok {| opusSupported := true; nativeMimeType := "" |})]
      (loaded DEFAULT_SETTINGS true None) = Some w' /\
    mediaRecorder w' = Some recorder /\
    state (stopRecording w') = processing.
Proof.
  destruct (run [CallToggleRecording;
                 UserMediaSettled 0 (Ok {| opusSupported := true; nativeMimeType := "" |})]
              (loaded DEFAULT_SETTINGS true None)) as [w'|] eqn:E;
    [|vm_compute in E; discriminate].
  assert (S : state w' = recording)
    by (vm_compute in E; injection E as <-; reflexivity).
  destruct (toggle_while_recording_always_stops _ _ _ _ w' E S)
    as [recorder [M [_ [P _]]]].
  exists w', recorder. repeat split; assumption.
Defined.

(** ** The ribbon icon *)

Lemma hasClass_toggleClass_same cls value el :
  hasClass cls (toggleClass cls value el) = value.
Proof.
  unfold toggleClass, hasClass. cbn [classList].
  destruct value.
  - destruct (existsb (String.eqb cls) (classList el)) eqn:H; [exact H|].
    rewrite existsb_app, H. cbn. now rewrite String.eqb_refl.
  - induction (classList el) as [|c l IH]; [reflexivity|].
    cbn [List.filter]. destruct (String.eqb c cls) eqn:E; cbn [negb]; [exact IH|].
    cbn [existsb]. now rewrite String.eqb_sym, E, IH.
Qed.

Lemma hasClass_toggleClass_other c cls value el :
  c <> cls -> hasClass c (toggleClass cls value el) = hasClass c el.
Proof.
  intros Hne. apply String.eqb_neq in Hne.
  unfold toggleClass, hasClass. cbn [classList].
  destruct value.
  - destruct (existsb (String.eqb cls) (classList el)); [reflexivity|].
    rewrite existsb_app. cbn. rewrite Hne. now rewrite !orb_false_r.
  - induction (classList el) as [|d l IH]; [reflexivity|].
    cbn [List.filter existsb]. destruct (String.eqb d cls) eqn:E; cbn [negb].
    + apply String.eqb_eq in E. subst d. now rewrite Hne, IH.
    + cbn [existsb]. now rewrite IH.
Qed.

(** One call of [updateRibbonState] makes the icon show the state it is
    given, whatever the icon showed before. *)
Lemma updateRibbonState_shows state el :
  exists el',
    updateRibbonState state (Some el) = Some el' /\
    hasClass "voice-note-recording" el' = sameState state recording /\
    hasClass "voice-note-processing" el' = sameState state processing /\
    ariaLabel el' = match state with
                    | idle => "Start recording voice note"
                    | recording => "Stop recording voice note"
                    | processing => "Processing voice note"
                    end /\
    forall c, c <> "voice-note-recording" -> c <> "voice-note-processing" ->
              hasClass c el' = hasClass c el.
Proof.
  eexists. split; [reflexivity|].
  assert (H : forall l (x : RibbonIcon) c, hasClass c (setAriaLabel l x) = hasClass c x)
    by reflexivity.
  destruct state; cbn [sameState]; rewrite !H;
    (split; [|split; [|split; [reflexivity|]]]).
  all: try (rewrite hasClass_toggleClass_other by discriminate;
            apply hasClass_toggleClass_same).
  all: try apply hasClass_toggleClass_same.
  all: intros c H1 H2; now rewrite H, !hasClass_toggleClass_other.
Qed.

Lemma ribbonAfter_snoc calls s el :
  ribbonAfter (calls ++ [s]) el = updateRibbonState s (ribbonAfter calls el).
Proof. unfold ribbonAfter. now rewrite foldl_app. Qed.

Lemma ribbonAfter_some calls : forall el,
  exists el',
    ribbonAfter calls (Some el) = Some el' /\
    forall c, c <> "voice-note-recording" -> c <> "voice-note-processing" ->
              hasClass c el' = hasClass c el.
Proof.
  induction calls as [|s calls IH] using rev_ind; intros el.
  - now exists el.
  - rewrite ribbonAfter_snoc. destruct (IH el) as [x [-> Hx]].
    destruct (updateRibbonState_shows s x) as [el' [E [_ [_ [_ D]]]]].
    exists el'. split; [exact E|].
    intros c N1 N2. now rewrite (D c N1 N2), (Hx c N1 N2).
Qed.

(** The last state the callback was given is the state of the service. *)
Lemma callback_has_seen_state_step e w w' :
  step e w = Some w' ->
  (stateChanges w = [] /\ state w = idle) \/ last (stateChanges w) = Some (state w) ->
  (stateChanges w' = [] /\ state w' = idle) \/ last (stateChanges w') = Some (state w').
Proof.
  destruct e as [| |i granted|recorderId data|i|i fetched|i fetched|s|view];
    simpl; intros Hs Hi.
  - injection Hs as <-. unfold toggleRecording, startRecording, stopRecording.
    destruct (state w) eqn:S;
      [destruct (hasGetUserMedia w) | destruct (mediaRecorder w) |];
      cbn [negb]; fields; rewrite ?S;
      first [exact Hi | right; apply last_snoc].
  - injection Hs as <-. unfold stopIfRecording, stopRecording.
    destruct (state w) eqn:S; [| destruct (mediaRecorder w) |];
      fields; rewrite ?S; first [exact Hi | right; apply last_snoc].
  - destruct (tasks w !! i) as [[]|]; try discriminate.
    destruct granted; injection Hs as <-; unfold startRecording_resume; fields;
      [right; apply last_snoc | exact Hi].
  - destruct (delivering recorderId w); [|discriminate]. injection Hs as <-.
    unfold onDataAvailable. destruct (0 <? size data); exact Hi.
  - destruct (tasks w !! i) as [[]|]; try discriminate. injection Hs as <-.
    unfold stopRecording_stopped.
    destruct (transcribeAudio_request _ _); fields;
      [exact Hi | right; apply last_snoc].
  - destruct (tasks w !! i) as [[]|]; try discriminate. injection Hs as <-.
    unfold stopRecording_transcribed.
    destruct (bind _ _); fields; [exact Hi | right; apply last_snoc].
  - destruct (tasks w !! i) as [[]|]; try discriminate. injection Hs as <-.
    unfold stopRecording_composed.
    destruct (generateNote_result fetched); cbn [bind];
      [unfold insertNote; destruct (activeView w)|]; fields;
      right; apply last_snoc.
  - injection Hs as <-. exact Hi.
  - injection Hs as <-. exact Hi.
Qed.

(** X12.  The ribbon icon shows the state of the service.  Take the icon
    as [onload] leaves it (the label "Start recording voice note", neither
    state class set) and apply the [onStateChange] calls of any schedule,
    overlapping calls included: the icon has the class
    "voice-note-recording" exactly in state recording, the class
    "voice-note-processing" exactly in state processing, the label of the
    current state, and its other classes as they were. *)
Theorem ribbon_shows_state
    (s : VoiceNoteSettings) (gum : bool) (view : option Editor)
    (es : list Event) (w' : World) (el : RibbonIcon) :
  run es (loaded s gum view) = Some w' ->
  hasClass "voice-note-recording" el = false ->
  hasClass "voice-note-processing" el = false ->
  ariaLabel el = "Start recording voice note" ->
  exists el',
    ribbonAfter (stateChanges w') (Some el) = Some el' /\
    hasClass "voice-note-recording" el' = sameState (state w') recording /\
    hasClass "voice-note-processing" el' = sameState (state w') processing /\
    ariaLabel el' = match state w' with
                    | idle => "Start recording voice note"
                    | recording => "Stop recording voice note"
                    | processing => "Processing voice note"
                    end /\
    forall c, c <> "voice-note-recording" -> c <> "voice-note-processing" ->
              hasClass c el' = hasClass c el.
Proof.
  assert (G : forall es w w',
            run es w = Some w' ->
            (stateChanges w = [] /\ state w = idle)
              \/ last (stateChanges w) = Some (state w) ->
            (stateChanges w' = [] /\ state w' = idle)
              \/ last (stateChanges w') = Some (state w')).
  { clear. induction es as [|e es IH]; intros w w' Hr Hi; simpl in Hr.
    - now injection Hr as <-.
    - destruct (step e w) as [w1|] eqn:Hs; [|discriminate].
      apply (IH w1 w' Hr). now apply (callback_has_seen_state_step e w). }
  intros Hr H1 H2 H3.
  destruct (G es _ w' Hr) as [[E S] | L]; [left; now split | |].
  - rewrite E, S. exists el.
    split; [reflexivity|]. split; [exact H1|]. split; [exact H2|].
    split; [exact H3|]. reflexivity.
  - apply last_Some in L as [calls L]. rewrite L, ribbonAfter_snoc.
    destruct (ribbonAfter_some calls el) as [x [-> Hx]].
    destruct (updateRibbonState_shows (state w') x) as [el' [E [A [B [C D]]]]].
    exists el'.
    split; [exact E|]. split; [exact A|]. split; [exact B|]. split; [exact C|].
    intros c N1 N2. now rewrite (D c N1 N2), (Hx c N1 N2).
Qed.

(** An instance: the icon while a recording runs. *)
Lemma ribbon_shows_state_witness :
  let el := {| classList := ["clickable-icon"; "voice-note-ribbon"];
               ariaLabel := "Start recording voice note" |} in
  exists w' el',
    run [CallToggleRecording;
         UserMediaSettled 0 (Ok {| opusSupported := true; nativeMimeType := "" |})]
      (loaded DEFAULT_SETTINGS true None) = Some w' /\
    ribbonAfter (stateChanges w') (Some el) = Some el' /\
    hasClass "voice-note-recording" el' = true /\
    ariaLabel el' = "Stop recording voice note".
Proof.
  intros el.
  destruct (run [CallToggleRecording;
                 UserMediaSettled 0 (Ok {| opusSupported := true; nativeMimeType := "" |})]
              (loaded DEFAULT_SETTINGS true None)) as [w'|] eqn:E;
    [|vm_compute in E; discriminate].
  assert (S : state w' = recording)
    by (vm_compute in E; injection E as <-; reflexivity).
  destruct (ribbon_shows_state _ _ _ _ w' el E eq_refl eq_refl eq_refl)
    as [el' [R [A [_ [L _]]]]].
  rewrite S in A, L.
  exists w', el'. split; [reflexivity|]. split; [exact R|].
  split; [exact A | exact L].
Defined.

(** ** The credential as typed *)

Lemma blank_app a b : blank (a +:+ b) = blank a && blank b.
Proof.
  induction a as [|c a IH]; [reflexivity|].
  rewrite append_cons. simpl. now rewrite IH, andb_assoc.
Qed.

(** Trimming leaves something of a string that is not blank. *)
Lemma trim_nonblank s : blank s = false -> trim s <> "".
Proof.
  intros Hb He. destruct (trim_split s) as [l [r [E [Bl Br]]]].
  rewrite He, append_nil in E. rewrite E, blank_app, Bl, Br in Hb.
  discriminate.
Qed.

(** X13.  The credential typed into the setting tab is stored trimmed, and
    the next stage that starts reads it: when the recorder stops after
    such an edit, a value of white space only counts as no credential
    (nothing is sent, the notice asks for the key), and any other value
    goes out, trimmed, as the bearer token of the upload. *)
Theorem typed_credential_is_trimmed
    (w : World) (value : string) (i : nat) (recorder : MediaRecorder) :
  tasks w !! i = Some (StopAwaitingRecorder recorder) ->
  transcriptionModel (settings w) <> "" ->
  exists w',
    run [SettingsEdited (onApiKeyChange value (settings w)); RecorderStopped i] w
    = Some w' /\
    (blank value = true ->
       requests w' = requests w /\
       notices w' = notices w ++ ["Add your OpenAI API key in settings."] /\
       state w' = idle) /\
    (blank value = false ->
       notices w' = notices w /\
       exists file,
         requests w' = requests w ++
           [TranscriptionRequest ("Bearer " +:+ trim value) file
              (transcriptionModel (settings w)) "json"]).
Proof.
  intros Ht Hm. apply truthy_true in Hm.
  eexists. split.
  - cbn [run step]. fields. rewrite Ht. reflexivity.
  - unfold stopRecording_stopped, transcribeAudio_request, onApiKeyChange.
    fields. cbn [apiKey transcriptionModel]. split; intros Hb.
    + rewrite (trim_blank _ Hb). cbn. repeat split.
    + apply trim_nonblank, truthy_true in Hb. rewrite Hb, Hm.
      cbn [negb advance]. fields. split; [reflexivity|].
      eexists. reflexivity.
Qed.

(** An instance: a key typed with a space on either side. *)
Lemma typed_credential_is_trimmed_witness :
  let r := {| rid := 0; mimeType := "audio/webm" |} in
  let w := set_tasks [StopAwaitingRecorder r]
             (setState processing (loaded DEFAULT_SETTINGS true None)) in
  exists w' file,
    run [SettingsEdited (onApiKeyChange " sk-test " (settings w)); RecorderStopped 0] w
    = Some w' /\
    requests w' = [TranscriptionRequest "Bearer sk-test" file "whisper-1" "json"].
Proof.
  intros r w.
  destruct (typed_credential_is_trimmed w " sk-test " 0 r eq_refl)
    as [w' [E [_ B]]]; [discriminate|].
  destruct (B eq_refl) as [_ [file R]].
  exists w', file. split; [exact E | exact R].
Defined.

(** ** A refused microphone *)

(** X14.  When the microphone is asked for and the request is rejected
    (permission denied, no device), the session is idle afterwards and the
    user has been shown nothing: no notice, no state change, no recorder,
    no stream. *)
Theorem rejected_acquisition_leaves_no_trace (w : World) (e : Thrown) :
  state w = idle -> hasGetUserMedia w = true ->
  exists w',
    run [CallToggleRecording; UserMediaSettled (length (tasks w)) (Throw e)] w
    = Some w' /\
    state w' = idle /\ notices w' = notices w /\
    stateChanges w' = stateChanges w /\
    mediaRecorder w' = mediaRecorder w /\ capturing w' = capturing w /\
    liveStreams w' = liveStreams w /\ tasks w' = tasks w.
Proof.
  intros Hs Hg. eexists. split.
  - cbn [run step]. unfold toggleRecording, startRecording.
    rewrite Hs, Hg. cbn [negb suspend tasks set_tasks].
    rewrite snoc_lookup. reflexivity.
  - fields. rewrite snoc_delete. repeat split. exact Hs.
Qed.

(** An instance: permission denied on the freshly loaded plugin. *)
Lemma rejected_acquisition_leaves_no_trace_witness :
  exists w',
    run [CallToggleRecording;
         UserMediaSettled 0 (Throw (ErrorObject "Permission denied"))]
      (loaded DEFAULT_SETTINGS true None) = Some w' /\
    state w' = idle /\ notices w' = [].
Proof.
  destruct (rejected_acquisition_leaves_no_trace
              (loaded DEFAULT_SETTINGS true None)
              (ErrorObject "Permission denied") eq_refl eq_refl)
    as [w' [E [S [N _]]]].
  exists w'. repeat split; assumption.
Defined.

(** ** What the stages return *)

Lemma trimEnd_idem s : trimEnd (trimEnd s) = trimEnd s.
Proof.
  induction s as [|c s IH]; [reflexivity|].
  cbn [trimEnd]. destruct (trimEnd s) as [|d t] eqn:T.
  - destruct (isWhiteSpace c) eqn:W; [reflexivity|].
    cbn [trimEnd]. now rewrite W.
  - cbn [trimEnd]. cbn [trimEnd] in IH. now rewrite IH.
Qed.

(** A string that does not begin with white space. *)
Lemma trimStart_fixed s :
  match s with
  | EmptyString => True
  | String c _ => isWhiteSpace c = false
  end -> trimStart s = s.
Proof. destruct s as [|c s]; [reflexivity|]. cbn. now intros ->. Qed.

Lemma trimStart_head s :
  match trimStart s with
  | EmptyString => True
  | String c _ => isWhiteSpace c = false
  end.
Proof.
  induction s as [|c s IH]; [exact I|].
  cbn [trimStart]. destruct (isWhiteSpace c) eqn:W; [exact IH | exact W].
Qed.

Lemma trimEnd_head s :
  match s with
  | EmptyString => True
  | String c _ => isWhiteSpace c = false
  end ->
  match trimEnd s with
  | EmptyString => True
  | String c _ => isWhiteSpace c = false
  end.
Proof.
  destruct s as [|c s]; [trivial|]. intros W. cbn [trimEnd].
  destruct (trimEnd s); [now rewrite W | exact W].
Qed.

Lemma trim_idem s : trim (trim s) = trim s.
Proof.
  unfold trim.
  rewrite (trimStart_fixed (trimEnd (trimStart s))).
  - apply trimEnd_idem.
  - apply trimEnd_head, trimStart_head.
Qed.

(** X15.  What a stage hands on is trimmed: the transcript Stage A returns
    has no white space at either end and is never empty (a text of white
    space only is refused like a missing one), and the note Stage B returns
    has no white space at either end. *)
Theorem stage_results_are_trimmed :
  (forall fetched transcript,
     transcribeAudio_result fetched = Ok transcript ->
     transcript <> "" /\ trim transcript = transcript) /\
  (forall raw t,
     blank t = true ->
     transcribeAudio_result
       (Ok {| ok := true; text := raw; json := Ok {| textField := Some t |} |})
     = Throw (ErrorObject "Transcription returned no text.")) /\
  (forall fetched note,
     generateNote_result fetched = Ok note -> trim note = note).
Proof.
  split; [|split].
  - intros [response | e] transcript; cbn; [|discriminate].
    destruct (ok response); cbn; [|discriminate].
    destruct (json response) as [data | e]; cbn; [|discriminate].
    destruct (textField data) as [t|]; [|discriminate].
    destruct (truthy (trim t)) eqn:T; cbn; [|discriminate].
    intros [= <-]. split; [now apply truthy_true | apply trim_idem].
  - intros raw t Hb. cbn. now rewrite (trim_blank _ Hb).
  - intros [response | e] note; cbn; [|discriminate].
    destruct (ok response); cbn; [|discriminate].
    destruct (json response) as [data | e]; cbn; [|discriminate].
    destruct (firstChoiceContent data) as [c|]; [|discriminate].
    destruct (truthy c); cbn; [|discriminate].
    intros [= <-]. apply trim_idem.
Qed.

(** An instance: a transcription padded with line feeds. *)
Lemma stage_results_are_trimmed_witness :
  transcribeAudio_result (transcribed (LF +:+ "buy milk" +:+ LF)) = Ok "buy milk" /\
  trim "buy milk" = "buy milk".
Proof.
  split; [reflexivity|].
  apply (proj1 stage_results_are_trimmed
           (transcribed (LF +:+ "buy milk" +:+ LF)) "buy milk" eq_refl).
Defined.

(** ** The note prompt as typed *)

(** X16.  The note prompt typed into the setting tab is stored trimmed and
    is no condition of Stage B: whatever was typed, an empty or blank text
    included, the stage that starts next sends its request, with the
    trimmed prompt as the system message and the transcript as the user
    message. *)
Theorem typed_prompt_is_sent_trimmed
    (w : World) (value : string) (i : nat)
    (fetched : Result (Response TranscriptionData)) (transcript : string) :
  tasks w !! i = Some TranscribeAwaitingFetch ->
  transcribeAudio_result fetched = Ok transcript ->
  apiKey (settings w) <> "" -> noteModel (settings w) <> "" ->
  exists w' body,
    run [SettingsEdited (onNotePromptChange value (settings w));
         TranscriptionSettled i fetched] w = Some w' /\
    requests w' = requests w ++
      [ChatRequest ("Bearer " +:+ apiKey (settings w)) body] /\
    model body = noteModel (settings w) /\
    messages body =
      [ {| role := system; content := trim value |};
        {| role := user; content := "Transcript:" +:+ LF +:+ transcript |} ] /\
    notices w' = notices w.
Proof.
  intros Ht Hr Hk Hm. apply truthy_true in Hk, Hm.
  eexists. eexists. split.
  - cbn [run step]. fields. rewrite Ht. reflexivity.
  - unfold stopRecording_transcribed. rewrite Hr. cbn [bind].
    unfold generateNote_request, onNotePromptChange. fields.
    cbn [apiKey noteModel]. rewrite Hk, Hm. cbn [negb advance]. fields.
    split; [reflexivity|].
    unfold generateNote_body. cbn [noteModel notePrompt].
    destruct (supportsTemperature _); repeat split.
Qed.

(** An instance: a prompt of spaces only. *)
Lemma typed_prompt_is_sent_trimmed_witness :
  let w := set_tasks [TranscribeAwaitingFetch]
             (setState processing
                (loaded {| apiKey := "sk-test"; transcriptionModel := "whisper-1";
                           noteModel := "gpt-4o-mini"; notePrompt := "Summarise." |}
                   true None)) in
  exists w' body,
    run [SettingsEdited (onNotePromptChange "   " (settings w));
         TranscriptionSettled 0 (transcribed "buy milk")] w = Some w' /\
    requests w' = [ChatRequest "Bearer sk-test" body] /\
    messages body =
      [ {| role := system; content := "" |};
        {| role := user; content := "Transcript:" +:+ LF +:+ "buy milk" |} ].
Proof.
  intros w.
  destruct (typed_prompt_is_sent_trimmed w "   " 0 (transcribed "buy milk")
              "buy milk" eq_refl eq_refl)
    as [w' [body [E [R [_ [M _]]]]]]; [discriminate | discriminate |].
  exists w', body. repeat split; assumption.
Defined.

(** ** Calls that reject *)

(** X17.  A remote call that rejects instead of answering (the network is
    down), or whose answer cannot be read as JSON, ends the attempt like
    any other failure: the notice is the message of the [Error] thrown, or
    "Failed to process recording." for a thrown value that is no [Error];
    no further request is sent, the document is untouched and the state is
    idle. *)
Theorem rejected_call_is_reported (w : World) (i : nat) (e : Thrown) :
  let notice := match e with
                | ErrorObject m => m
                | OtherValue => "Failed to process recording."
                end in
  (forall fetched,
     tasks w !! i = Some TranscribeAwaitingFetch ->
     fetched = Throw e \/
     (exists response, fetched = Ok response /\ ok response = true /\
                       json response = Throw e) ->
     exists w',
       step (TranscriptionSettled i fetched) w = Some w' /\
       notices w' = notices w ++ [notice] /\
       requests w' = requests w /\ activeView w' = activeView w /\
       state w' = idle /\ chunks w' = [] /\ tasks w' = delete i (tasks w)) /\
  (forall fetched,
     tasks w !! i = Some GenerateAwaitingFetch ->
     fetched = Throw e \/
     (exists response, fetched = Ok response /\ ok response = true /\
                       json response = Throw e) ->
     exists w',
       step (CompletionSettled i fetched) w = Some w' /\
       notices w' = notices w ++ [notice] /\
       requests w' = requests w /\ activeView w' = activeView w /\
       state w' = idle /\ chunks w' = [] /\ tasks w' = delete i (tasks w)).
Proof.
  intros notice. split; intros fetched Ht Hf.
  - assert (R : transcribeAudio_result fetched = Throw e).
    { destruct Hf as [-> | [response [-> [Hok Hj]]]]; [reflexivity|].
      unfold transcribeAudio_result. cbn [bind]. now rewrite Hok, Hj. }
    eexists. split; [cbn [step]; rewrite Ht; reflexivity|].
    unfold stopRecording_transcribed. rewrite R. cbn [bind advance]. fields.
    repeat split.
  - assert (R : generateNote_result fetched = Throw e).
    { destruct Hf as [-> | [response [-> [Hok Hj]]]]; [reflexivity|].
      unfold generateNote_result. cbn [bind]. now rewrite Hok, Hj. }
    eexists. split; [cbn [step]; rewrite Ht; reflexivity|].
    unfold stopRecording_composed. rewrite R. cbn [bind]. fields.
    repeat split.
Qed.

(** An instance: the transcription call fails to connect. *)
Lemma rejected_call_is_reported_witness :
  let w := set_tasks [TranscribeAwaitingFetch]
             (setState processing (loaded DEFAULT_SETTINGS true None)) in
  exists w',
    step (TranscriptionSettled 0 (Throw (ErrorObject "Failed to fetch"))) w = Some w' /\
    notices w' = ["Failed to fetch"] /\ state w' = idle.
Proof.
  intros w.
  destruct (proj1 (rejected_call_is_reported w 0 (ErrorObject "Failed to fetch"))
              (Throw (ErrorObject "Failed to fetch")) eq_refl)
    as [w' [E [N [_ [_ [S _]]]]]]; [now left|].
  exists w'. repeat split; assumption.
Defined.

(** ** The external stop request *)

(** A cycle that begins with [stopIfRecording] and in which both calls
    succeed. *)
Lemma stop_request_cycle_succeeds
    (w : World) (recorder : MediaRecorder) (ed : Editor)
    (fetchedA : Result (Response TranscriptionData))
    (fetchedB : Result (Response CompletionData))
    (transcript note : string) :
  state w = recording -> mediaRecorder w = Some recorder ->
  apiKey (settings w) <> "" -> transcriptionModel (settings w) <> "" ->
  noteModel (settings w) <> "" ->
  activeView w = Some ed ->
  transcribeAudio_result fetchedA = Ok transcript ->
  generateNote_result fetchedB = Ok note ->
  exists w' file,
    run (CallStopIfRecording ::
         attemptEvents (length (tasks w)) fetchedA fetchedB) w = Some w' /\
    requests w' = requests w ++
      [TranscriptionRequest ("Bearer " +:+ apiKey (settings w)) file
         (transcriptionModel (settings w)) "json";
       ChatRequest ("Bearer " +:+ apiKey (settings w))
         (generateNote_body (settings w) transcript)] /\
    activeView w' = Some (replaceSelection (note +:+ LF) ed) /\
    notices w' = notices w ++ ["Voice note inserted."] /\
    state w' = idle /\ chunks w' = [] /\ tasks w' = tasks w.
Proof.
  intros Hs Hr Hk Hm Hn Hv Ha Hb.
  destruct (cycle_reaches_upload w recorder Hs Hr Hk Hm)
    as [w2 [file [E2 [T2 [R2 [F2 [S2 [V2 [N2 [C2 [St2 [M2 L2]]]]]]]]]]]].
  assert (E2' : run [CallStopIfRecording; RecorderStopped (length (tasks w))] w
                = Some w2).
  { rewrite <- E2. cbn [run step].
    unfold stopIfRecording, toggleRecording. now rewrite Hs. }
  apply truthy_true in Hk, Hn.
  set (w3 := stopRecording_transcribed (length (tasks w)) fetchedA w2).
  assert (E3 : step (TranscriptionSettled (length (tasks w)) fetchedA) w2 = Some w3)
    by (cbn [step]; now rewrite T2, snoc_lookup).
  assert (X3 : w3 = set_tasks (tasks w ++ [GenerateAwaitingFetch])
                      (fetch (ChatRequest ("Bearer " +:+ apiKey (settings w))
                                (generateNote_body (settings w) transcript)) w2)).
  { unfold w3, stopRecording_transcribed. rewrite Ha. cbn [bind].
    unfold generateNote_request. rewrite S2, Hk, Hn. cbn [negb advance].
    now rewrite T2, snoc_insert. }
  exists (stopRecording_composed (length (tasks w)) fetchedB w3), file. split.
  - unfold attemptEvents.
    change [CallStopIfRecording; RecorderStopped (length (tasks w));
            TranscriptionSettled (length (tasks w)) fetchedA;
            CompletionSettled (length (tasks w)) fetchedB]
      with ([CallStopIfRecording; RecorderStopped (length (tasks w))]
            ++ [TranscriptionSettled (length (tasks w)) fetchedA;
                CompletionSettled (length (tasks w)) fetchedB]).
    rewrite run_app, E2'. cbn [run]. rewrite E3. cbn [step].
    rewrite X3 at 1. fields. now rewrite snoc_lookup.
  - rewrite (composed_delivered w3 _ fetchedB note ed Hb)
      by (rewrite X3; fields; now rewrite V2).
    rewrite X3. fields.
    rewrite snoc_delete, R2, <- app_assoc, N2.
    repeat split.
Qed.

(** X1.  [stopIfRecording], which [onunload] calls, is a toggle that only
    stops.  Unless the state is recording it leaves the world as it is, so
    whatever follows goes as if it had not been called: it neither asks for
    the microphone (as a toggle in state idle does) nor shows the "Already
    processing" notice, and an attempt in flight runs on.  In state
    recording it does what a toggle does, for every schedule that follows:
    the recording is not dropped but goes through the pipeline, and when
    the configuration is in place, an editor is active and both calls
    succeed, it is uploaded, composed and inserted, with the notice
    "Voice note inserted.". *)
Theorem stop_request_runs_the_pipeline (w : World) :
  (state w <> recording ->
     forall es, run (CallStopIfRecording :: es) w = run es w) /\
  (state w = recording ->
     forall es,
       run (CallStopIfRecording :: es) w = run (CallToggleRecording :: es) w) /\
  (forall (recorder : MediaRecorder) (ed : Editor)
          (fetchedA : Result (Response TranscriptionData))
          (fetchedB : Result (Response CompletionData))
          (transcript note : string),
     state w = recording -> mediaRecorder w = Some recorder ->
     apiKey (settings w) <> "" -> transcriptionModel (settings w) <> "" ->
     noteModel (settings w) <> "" ->
     activeView w = Some ed ->
     transcribeAudio_result fetchedA = Ok transcript ->
     generateNote_result fetchedB = Ok note ->
     exists w' file,
       run (CallStopIfRecording ::
            attemptEvents (length (tasks w)) fetchedA fetchedB) w = Some w' /\
       requests w' = requests w ++
         [TranscriptionRequest ("Bearer " +:+ apiKey (settings w)) file
            (transcriptionModel (settings w)) "json";
          ChatRequest ("Bearer " +:+ apiKey (settings w))
            (generateNote_body (settings w) transcript)] /\
       activeView w' = Some (replaceSelection (note +:+ LF) ed) /\
       notices w' = notices w ++ ["Voice note inserted."] /\
       state w' = idle /\ chunks w' = [] /\ tasks w' = tasks w).
Proof.
  split; [|split].
  - intros Hs es. cbn [run step]. unfold stopIfRecording.
    destruct (state w); [reflexivity | contradiction | reflexivity].
  - intros Hs es. cbn [run step]. unfold stopIfRecording, toggleRecording.
    now rewrite Hs.
  - intros recorder ed fetchedA fetchedB transcript note.
    apply stop_request_cycle_succeeds.
Qed.

(** Instances: unloading while an attempt is processing, and unloading
    while recording. *)
Lemma stop_request_runs_the_pipeline_witness :
  (let w := set_tasks [TranscribeAwaitingFetch]
              (setState processing (loaded DEFAULT_SETTINGS true None)) in
   run [CallStopIfRecording] w = Some w) /\
  (let r := {| rid := 0; mimeType := "audio/webm" |} in
   let ed := {| before := "a"; selection := "b"; after := "c" |} in
   let w := set_capturing [0]
              (set_mediaRecorder (Some r)
                 (setState recording
                    (loaded {| apiKey := "sk-test"; transcriptionModel := "whisper-1";
                               noteModel := "gpt-4o-mini"; notePrompt := "Summarise." |}
                       true (Some ed)))) in
   exists w',
     run (CallStopIfRecording ::
          attemptEvents 0 (transcribed "buy milk") (composed "Milk")) w = Some w' /\
     length (requests w') = 2 /\
     notices w' = ["Voice note inserted."]).
Proof.
  split.
  - intros w.
    apply (proj1 (stop_request_runs_the_pipeline w)). discriminate.
  - intros r ed w.
    destruct (proj2 (proj2 (stop_request_runs_the_pipeline w))
                r ed (transcribed "buy milk") (composed "Milk")
                "buy milk" "Milk" eq_refl eq_refl)
      as [w' [file [E [R [_ [N _]]]]]];
      try discriminate; try reflexivity.
    exists w'. split; [exact E|]. split; [now rewrite R | exact N].
Defined.
